(** * meegnobis.utils: convolution, moving average, pair count, label intersection

    A shallow embedding of [meegnobis/utils.py] and the properties of its four
    routines.

    Modelling choices.
    - An [np.ndarray] is a C-contiguous buffer together with its shape.
    - Python floats are IEEE-754 binary64 numbers, with the operations of
      [SpecFloat].  Where rounding decides what the code does it is modelled:
      the window length [np.ceil(float(twindow) * sfreq)] of [moving_average],
      its comparison with the number of time samples, and the pair count of
      [_npairs].  The time window, the sampling frequency and the time stamps
      are floats.
    - The elements of the data arrays (float64 in the source) are exact
      rationals [Qc]: what is proved about [convolve] and [moving_average] is
      about shapes, slices, the order of operations and the exceptions, and
      about the values of samples only for the filter of the single weight 1.
      Rounding of sample values, NaN and infinite samples are outside the
      model.
    - Exceptions are values of [exn]; a computation returns [result A].  Every
      exception raised inside numpy or a builtin is the one constructor
      [PrimitiveError]; which operation raises is stated with the operation.
    - [moving_average] reads and writes Python objects: it runs in a
      state-and-exception monad over a heap of objects.
    - numpy is the numpy of the releases the code addresses: [np.vectorize]
      with a signature as in 1.12 and later, the primitives of the manual
      branch as in 1.10 and 1.11. *)

From Stdlib Require Import ZArith QArith Qcanon Qround Qpower Floats.SpecFloat.
From stdpp Require Import base list strings sorting gmap.


(** Python floats are IEEE-754 binary64 numbers. *)
Definition float : Type := spec_float.

(** ** Exceptions and results *)

(** The three [ValueError]s the module raises itself, under the names the
    specification gives them, and one constructor for every exception that is
    raised inside numpy or a Python builtin. *)
Inductive exn : Type :=
| UnsupportedShapeError                       (* utils.py:35 *)
| InvalidWindowError (twindow span : float)   (* utils.py:70, the two format arguments *)
| InsufficientItemsError (n_items : Z)        (* utils.py:89, the format argument *)
| PrimitiveError.

Inductive result (A : Type) : Type :=
| Ok (a : A)
| Raise (e : exn).
Arguments Ok {A} a.
Arguments Raise {A} e.

Definition rbind {A B} (r : result A) (k : A → result B) : result B :=
  match r with
  | Ok a => k a
  | Raise e => Raise e
  end.

#[global] Instance result_bind : MBind result := fun A B k r => rbind r k.
#[global] Instance result_ret : MRet result := @Ok.

(** A [for] loop, or a list comprehension, whose body may raise. *)
Fixpoint for_each {A B} (body : A → result B) (l : list A) : result (list B) :=
  match l with
  | [] => Ok []
  | x :: l' => y ← body x; ys ← for_each body l'; Ok (y :: ys)
  end.

(** ** binary64 numbers *)

Definition float_add : float → float → float := SFadd 53 1024.
Definition float_sub : float → float → float := SFsub 53 1024.
Definition float_mul : float → float → float := SFmul 53 1024.
Definition float_div : float → float → float := SFdiv 53 1024.

(** The conversion of an [int] operand of a float operation: rounded to the
    nearest float, ties to even; [OverflowError] beyond the largest float. *)
Definition float_of_int (z : Z) : result float :=
  match binary_normalize 53 1024 z 0 false with
  | S754_infinity _ => Raise PrimitiveError
  | f => Ok f
  end.

(** [int(x)]: truncation towards zero; an infinity or a NaN raises. *)
Definition int_of_float (x : float) : result Z :=
  match x with
  | S754_zero _ => Ok 0%Z
  | S754_finite s m e =>
      Ok (cond_Zopp s
            (match e with
             | Zneg p => Z.pos m / 2 ^ Z.pos p
             | _ => Z.pos m * 2 ^ e
             end))%Z
  | _ => Raise PrimitiveError
  end.

(** The literals [1.] and [2.] *)
Definition float_one : float := binary_normalize 53 1024 1 0 false.
Definition float_two : float := binary_normalize 53 1024 2 0 false.

(** [np.ceil(x)]: the least integer that is not below [x], as a float.  A
    float with a non-negative exponent is an integer already; a zero result
    has the sign of [x]; infinities and NaN are returned as they are. *)
Definition np_ceil (x : float) : float :=
  match x with
  | S754_finite s m (Zneg p) =>
      binary_normalize 53 1024 (- (- cond_Zopp s (Zpos m) / 2 ^ Zpos p))%Z 0 s
  | _ => x
  end.

(** [x > n] for a float [x] and an [int] [n]: the two are compared as
    numbers; NaN compares false. *)
Definition float_gt_int (x : float) (n : Z) : bool :=
  match x with
  | S754_nan => false
  | S754_infinity s => negb s
  | S754_zero _ => (n <? 0)%Z
  | S754_finite s m (Zneg p) => (n * 2 ^ Zpos p <? cond_Zopp s (Zpos m))%Z
  | S754_finite s m e => (n <? cond_Zopp s (Zpos m) * 2 ^ e)%Z
  end.

(** ** numpy arrays *)

Record ndarray : Type := NdArray { shape : list nat; buf : list Qc }.

Definition ndim (a : ndarray) : nat := length (shape a).

(** Number of elements of an array of shape [shp]. *)
Definition size_of (shp : list nat) : nat := foldr Nat.mul 1 shp.

(** The buffer holds as many elements as the shape says. *)
Definition wf_ndarray (a : ndarray) : Prop := length (buf a) = size_of (shape a).

(** The [i]-th block of [n] consecutive elements of a buffer. *)
Definition chunk (n i : nat) (l : list Qc) : list Qc := take n (drop (i * n) l).

Definition chunks (n count : nat) (l : list Qc) : list (list Qc) :=
  map (fun i => chunk n i l) (seq 0 count).

(** A shape split into its leading axes and its last axis. *)
Fixpoint split_last (shp : list nat) : option (list nat * nat) :=
  match shp with
  | [] => None
  | [n] => Some ([], n)
  | d :: shp' =>
      match split_last shp' with
      | Some (lead, n) => Some (d :: lead, n)
      | None => None
      end
  end.

(** The 1-D slices of an array along its last axis, in index order. *)
Definition lanes (a : ndarray) : list (list Qc) :=
  match split_last (shape a) with
  | None => []
  | Some (lead, n) => chunks n (size_of lead) (buf a)
  end.

(** [np.array(l)] of a flat list. *)
Definition array1 (l : list Qc) : ndarray := NdArray [length l] l.

(** ** numpy primitives *)

Definition qsum (l : list Qc) : Qc := foldr Qcplus 0%Qc l.

(** Entry [n] of the full discrete convolution: the sum of [a[m] * v[n-m]]. *)
Definition conv_at (a v : list Qc) (n : nat) : Qc :=
  qsum (map (fun m => nth m a 0 * nth (n - m) v 0)%Qc (seq 0 (S n))).

(** [np.convolve(a, v)] in its default mode ['full']: the longer operand comes
    first, an empty operand raises [ValueError], and the result has
    [len(a) + len(v) - 1] entries. *)
Definition np_convolve (a v : list Qc) : result (list Qc) :=
  let '(a, v) := if length a <? length v then (v, a) else (a, v) in
  if length a =? 0 then Raise PrimitiveError
  else if length v =? 0 then Raise PrimitiveError
  else Ok (map (conv_at a v) (seq 0 (length a + length v - 1))).

(** [np.vectorize(pyfunc, signature='(n),(m)->(k)')] called on an array and a
    1-D filter: [pyfunc] is called on every lane of the array, in index order;
    the first result fixes [k]; the results are stored in an array of shape
    [lead + (k,)].  A 0-d array has no core dimension and an array without
    lanes leaves [k] undetermined: both raise.  The lanes of an array have one
    length, and so have the results of the functions used here; results of
    different lengths are outside the model and raise. *)
Definition np_vectorize_nm_k (pyfunc : list Qc → list Qc → result (list Qc))
    (array : ndarray) (filt : list Qc) : result ndarray :=
  match split_last (shape array) with
  | None => Raise PrimitiveError
  | Some (lead, n) =>
      results ← for_each (fun x => pyfunc x filt) (chunks n (size_of lead) (buf array));
      match results with
      | [] => Raise PrimitiveError
      | r0 :: _ =>
          if forallb (fun r => (length r =? length r0)) results
          then Ok (NdArray (lead ++ [length r0]) (concat results))
          else Raise PrimitiveError
      end
  end.

(** [for array0 in array]: the sub-arrays along the first axis. *)
Definition np_iter (array : ndarray) : result (list ndarray) :=
  match shape array with
  | [] => Raise PrimitiveError
  | d :: shp => Ok (map (fun i => NdArray shp (chunk (size_of shp) i (buf array))) (seq 0 d))
  end.

(** [np.apply_along_axis(func1d, 1, arr)] on a 2-D array: [func1d] is applied
    to every row; the first result fixes the length of the output rows.
    An array without rows raises.  The routine is only ever called on 2-D
    arrays here; other ranks are not modelled and raise. *)
Definition np_apply_along_axis_1 (func1d : list Qc → result (list Qc))
    (arr : ndarray) : result ndarray :=
  match shape arr with
  | [r; n] =>
      results ← for_each func1d (chunks n r (buf arr));
      match results with
      | [] => Raise PrimitiveError
      | r0 :: _ =>
          if forallb (fun x => (length x =? length r0)) results
          then Ok (NdArray [r; length r0] (concat results))
          else Raise PrimitiveError
      end
  | _ => Raise PrimitiveError
  end.

(** [np.stack(arrays)]: a new first axis; no arrays, or arrays of different
    shapes, raise. *)
Definition np_stack (arrays : list ndarray) : result ndarray :=
  match arrays with
  | [] => Raise PrimitiveError
  | a0 :: _ =>
      if forallb (fun a => bool_decide (shape a = shape a0)) arrays
      then Ok (NdArray (length arrays :: shape a0) (concat (map buf arrays)))
      else Raise PrimitiveError
  end.

(** ** [_conv] and [convolve] *)

Definition _conv (array filt : list Qc) : result (list Qc) :=
  res ← np_convolve array filt;
  Ok (take (length array) res).

(** The manual vectorisation of the [else] branch (utils.py:33-50). *)
Definition convolve_manual (array : ndarray) (filt : list Qc) : result ndarray :=
  if (3 <? ndim array) then Raise UnsupportedShapeError
  else
    let conv := fun x => _conv x filt in
    if (ndim array =? 1) then
      r ← conv (buf array); Ok (array1 r)
    else
      subarrays ← np_iter array;
      array_convolve ←
        for_each (fun array0 =>
                    if (ndim array0 =? 1)
                    then r ← conv (buf array0); Ok (array1 r)
                    else np_apply_along_axis_1 conv array0)
                 subarrays;
      np_stack array_convolve.

(** The branch taken for [np.__version__ >= '1.12.0'] (utils.py:28-31). *)
Definition convolve_vectorized (array : ndarray) (filt : list Qc) : result ndarray :=
  np_vectorize_nm_k
    (fun x y => res ← np_convolve x y; Ok (take (length x) res))
    array filt.

(** Python compares the two version strings character by character. *)
Definition version_ge (v w : string) : bool := String.leb w v.

Definition convolve (np_version : string) (array : ndarray) (filt : list Qc)
    : result ndarray :=
  if version_ge np_version "1.12.0"
  then convolve_vectorized array filt
  else convolve_manual array filt.

(** *** Auxiliary definitions for the statements about [convolve] *)

(** A list of array elements, written with rationals. *)
Definition qs (l : list Q) : list Qc := map Q2Qc l.

(** The lane [_conv] returns when it does not raise. *)
Definition conv_lane (filt x : list Qc) : list Qc :=
  match _conv x filt with
  | Ok r => r
  | Raise _ => []
  end.

(** What both strategies compute: [_conv] on every lane, stored under the
    shape of the input; no lane, an empty lane or an empty filter raise. *)
Definition convolve_lanes (array : ndarray) (filt : list Qc) : result ndarray :=
  match split_last (shape array) with
  | None => Raise PrimitiveError
  | Some (lead, n) =>
      if (n =? 0) || (size_of lead =? 0) || (length filt =? 0)
      then Raise PrimitiveError
      else Ok (NdArray (shape array) (concat (map (conv_lane filt) (lanes array))))
  end.

(** ** [moving_average] *)

(** [np.transpose(a, [1, 0, 2])]: the first two axes swapped, so that lane
    [(j, i)] of the result is lane [(i, j)] of [a]; the axes list does not
    fit an array that is not 3-D, which raises. *)
Definition np_transpose_1_0_2 (a : ndarray) : result ndarray :=
  match shape a with
  | [d0; d1; d2] =>
      Ok (NdArray [d1; d0; d2]
            (concat (map (fun j =>
               concat (map (fun i => chunk d2 (i * d1 + j) (buf a)) (seq 0 d0)))
               (seq 0 d1))))
  | _ => Raise PrimitiveError
  end.

(** [np.ones(k)]: a negative length raises. *)
Definition np_ones (k : Z) : result (list Qc) :=
  if (k <? 0)%Z then Raise PrimitiveError else Ok (repeat 1%Qc (Z.to_nat k)).

Definition Qc_of_Z (z : Z) : Qc := Q2Qc (inject_Z z).

(** The number a finite float stands for, as an array element. *)
Definition Qc_of_float (x : float) : Qc :=
  match x with
  | S754_finite s m e => Q2Qc (inject_Z (cond_Zopp s (Zpos m)) * 2 ^ e)
  | _ => 0%Qc
  end.

(** [l[0]] and [l[-1]]: [IndexError] on an empty sequence. *)
Definition getitem_first {A} (l : list A) : result A :=
  match l with
  | [] => Raise PrimitiveError
  | x :: _ => Ok x
  end.

Definition getitem_last {A} (l : list A) : result A :=
  match reverse l with
  | [] => Raise PrimitiveError
  | x :: _ => Ok x
  end.

(** *** The heap of Python objects *)

Abbreviation loc := nat (only parsing).

(** An [mne.Epochs] object, with the attributes the routine touches:
    [info['sfreq']], a float; [times], an array of floats; and the reference
    [_data] to the data array. *)
Record Epochs : Type :=
  MkEpochs { info_sfreq : float; times : list float; _data : loc }.

Inductive pyobj : Type :=
| ObjNdarray (a : ndarray)
| ObjEpochs (e : Epochs).

(** Objects are allocated at the end of the heap and never freed. *)
Abbreviation heap := (list pyobj) (only parsing).

(** A computation that reads and writes the heap and may raise. *)
Definition py (A : Type) : Type := heap → result A * heap.

#[global] Instance py_ret : MRet py := fun A a h => (Ok a, h).
#[global] Instance py_bind : MBind py := fun A B k m h =>
  match m h with
  | (Ok a, h') => k a h'
  | (Raise e, h') => (Raise e, h')
  end.

Definition raise {A} (e : exn) : py A := fun h => (Raise e, h).

Definition lift {A} (r : result A) : py A := fun h => (r, h).

Definition alloc (o : pyobj) : py loc := fun h => (Ok (length h), h ++ [o]).

Definition load_epochs (l : loc) : py Epochs := fun h =>
  match h !! l with
  | Some (ObjEpochs e) => (Ok e, h)
  | _ => (Raise PrimitiveError, h)
  end.

Definition load_ndarray (l : loc) : py ndarray := fun h =>
  match h !! l with
  | Some (ObjNdarray a) => (Ok a, h)
  | _ => (Raise PrimitiveError, h)
  end.

(** [obj._data = data]: the attribute of the object at [l] now refers to [d]. *)
Definition setattr__data (l : loc) (d : loc) : py () := fun h =>
  match h !! l with
  | Some (ObjEpochs e) =>
      (Ok (), <[l := ObjEpochs (MkEpochs (info_sfreq e) (times e) d)]> h)
  | _ => (Raise PrimitiveError, h)
  end.

(** [epoch.copy()]: a deep copy, a new [Epochs] object with a data array of
    its own. *)
Definition Epochs_copy (epoch : loc) : py loc :=
  e ← load_epochs epoch;
  a ← load_ndarray (_data e);
  d ← alloc (ObjNdarray a);
  alloc (ObjEpochs (MkEpochs (info_sfreq e) (times e) d)).

(** [np.ceil(float(twindow) * epoch.info['sfreq'])]: the product of the two
    floats is rounded to binary64 before the ceiling is taken; [twindow] is
    the argument after [float(...)]. *)
Definition nsamples_of (twindow sfreq : float) : float :=
  np_ceil (float_mul twindow sfreq).

(** [np.ones(int(nsamples)) / nsamples]: [int] raises on an infinity or NaN,
    [np.ones] on a negative length; every entry is divided by the number
    [nsamples] stands for. *)
Definition boxcar (nsamples : float) : result (list Qc) :=
  k ← int_of_float nsamples;
  ones ← np_ones k;
  Ok (map (fun x => x / Qc_of_float nsamples)%Qc ones).

(** The arrays bound to the local [data] are values; the array assigned to
    [epoch_._data] becomes an object of the heap. *)
Definition moving_average (np_version : string) (epoch : loc) (twindow : float)
    : py loc :=
  epoch_ ← Epochs_copy epoch;
  e ← load_epochs epoch;
  let nsamples := nsamples_of twindow (info_sfreq e) in
  if float_gt_int nsamples (Z.of_nat (length (times e))) then
    t_last ← lift (getitem_last (times e));
    t_first ← lift (getitem_first (times e));
    raise (InvalidWindowError twindow (float_sub t_last t_first))
  else
    filt ← lift (boxcar nsamples);
    e_ ← load_epochs epoch_;
    data ← load_ndarray (_data e_);
    data ← lift (np_transpose_1_0_2 data);
    data ← lift (convolve np_version data filt);
    data ← lift (np_transpose_1_0_2 data);
    d ← alloc (ObjNdarray data);
    _ ← setattr__data epoch_ d;
    mret epoch_.

(** *** Auxiliary definitions for the statements about [moving_average] *)

(** Lines 74-80, the part of [moving_average] that does not touch the heap:
    the filter, and the data convolved between two transpositions. *)
Definition smooth (np_version : string) (nsamples : float) (data : ndarray)
    : result ndarray :=
  filt ← boxcar nsamples;
  d ← np_transpose_1_0_2 data;
  d ← convolve np_version d filt;
  np_transpose_1_0_2 d.

(** The object at [epoch] is an epoch container: its data is a well-formed
    [(n_epochs, n_channels, n_times)] array with one time sample per entry of
    [times].  Any of the three numbers may be zero. *)
Definition epochs_at (h : heap) (epoch : loc) (e : Epochs) (data : ndarray)
    (n_epochs n_channels : nat) : Prop :=
  h !! epoch = Some (ObjEpochs e)
  ∧ h !! _data e = Some (ObjNdarray data)
  ∧ wf_ndarray data
  ∧ shape data = [n_epochs; n_channels; length (times e)].

(** The float [x] is the integer [n]: [int(x)] is [n], [x] stands for [n],
    and [x] compares with integers as [n] does. *)
Definition float_is_int (x : float) (n : Z) : Prop :=
  int_of_float x = Ok n
  ∧ Qc_of_float x = Qc_of_Z n
  ∧ ∀ k, float_gt_int x k = (k <? n)%Z.

(** The float of an integer literal. *)
Definition float_lit (z : Z) : float := binary_normalize 53 1024 z 0 false.

(** The lane of a [(a, b, n)] array that lane [k] of its transpose comes from. *)
Definition sigma (a b k : nat) : nat := (k mod a) * b + k / a.

(** ** [_npairs] *)

Definition _npairs (n_items : Z) : result Z :=
  if (n_items <? 2)%Z then Raise (InsufficientItemsError n_items)
  else
    x ← float_of_int (n_items * (n_items - 1));
    let half := float_div x float_two in
    y ← float_of_int n_items;
    int_of_float (float_add half y).

(** *** Auxiliary definition for the statements about [_npairs] *)

(** The float with mantissa [m] and exponent [e] has 53 digits and is the
    positive integer [v]. *)
Definition exact53 (m : positive) (e v : Z) : Prop :=
  digits2_pos m = 53%positive ∧ (e ≤ 0)%Z ∧ (0 < v)%Z
  ∧ Z.pos m = (v * 2 ^ (- e))%Z.

(** The index pairs [(i, j)] of the upper triangle of an [n × n] matrix,
    diagonal included, row by row. *)
Definition triu (n : nat) : list (nat * nat) :=
  flat_map (fun i => map (fun j => (i, j)) (seq i (n - i))) (seq 0 n).

(** ** [_get_unique_targets] *)

Section UniqueTargets.
(** Labels: values that can be hashed and are totally ordered by [label_le]. *)
Context {label : Type} `{Countable label}.
Context (label_le : relation label) `{!RelDecision label_le}.

(** [np.unique(ar)]: the sorted unique elements. *)
Definition np_unique (ar : list label) : list label :=
  merge_sort label_le (remove_dups ar).

(** [sorted(s)] of a set. *)
Definition sorted (s : gset label) : list label :=
  merge_sort label_le (elements s).

Definition _get_unique_targets (targets_train targets_test : list label)
    : list label :=
  let unique_targets_train := np_unique targets_train in
  let unique_targets_test := np_unique targets_test in
  let unique_targets :=
    sorted ((list_to_set unique_targets_train : gset label)
              ∩ list_to_set unique_targets_test) in
  unique_targets.
End UniqueTargets.

(** * Properties *)

(** ** Buffers, chunks and loops *)

Lemma size_of_app (l1 l2 : list nat) : size_of (l1 ++ l2) = size_of l1 * size_of l2.
Proof.
  unfold size_of. induction l1 as [|d l1 IH]; simpl; [lia|]. rewrite IH. lia.
Qed.

Lemma split_last_snoc (lead : list nat) (n : nat) :
  split_last (lead ++ [n]) = Some (lead, n).
Proof.
  induction lead as [|d lead IH]; [done|].
  simpl. rewrite IH. by destruct (lead ++ [n]) eqn:E; [destruct lead|].
Qed.

Lemma split_last_Some (shp lead : list nat) (n : nat) :
  split_last shp = Some (lead, n) ↔ shp = lead ++ [n].
Proof.
  split; [|intros ->; apply split_last_snoc].
  destruct shp as [|d shp _] using rev_ind; [done|].
  rewrite split_last_snoc. by intros [= <- <-].
Qed.

Lemma split_last_None (shp : list nat) : split_last shp = None ↔ shp = [].
Proof.
  split; [|by intros ->].
  destruct shp as [|d shp _] using rev_ind; [done|].
  by rewrite split_last_snoc.
Qed.

Lemma length_chunk (n i : nat) (l : list Qc) :
  (i + 1) * n ≤ length l → length (chunk n i l) = n.
Proof. intros H. unfold chunk. rewrite length_take, length_drop. lia. Qed.

Lemma chunk_chunk (n r i j : nat) (l : list Qc) :
  j < r → chunk n j (chunk (r * n) i l) = chunk n (i * r + j) l.
Proof.
  intros Hj. unfold chunk.
  rewrite skipn_firstn_comm, take_take, drop_drop.
  f_equal; [nia|]. f_equal. nia.
Qed.

Lemma chunks_concat (n : nat) (rows : list (list Qc)) :
  Forall (fun r => length r = n) rows →
  chunks n (length rows) (concat rows) = rows.
Proof.
  unfold chunks. induction 1 as [|r rows Hr _ IH]; [done|].
  simpl. unfold chunk at 1. rewrite drop_0, take_app_length' by done.
  f_equal. rewrite <- seq_shift, map_map. rewrite <- IH at 2.
  apply map_ext. intros i. unfold chunk.
  replace (S i * n) with (length r + i * n) by lia.
  by rewrite <- drop_drop, drop_app_length.
Qed.

Lemma concat_chunks (n count : nat) (l : list Qc) :
  length l = count * n → concat (chunks n count l) = l.
Proof.
  unfold chunks. revert l. induction count as [|c IH]; intros l Hl.
  - by destruct l.
  - rewrite seq_S, map_app, concat_app. simpl. rewrite app_nil_r.
    transitivity (take (c * n) l ++ drop (c * n) l); [|apply take_drop]. f_equal.
    + rewrite <- (IH (take (c * n) l)) by (rewrite length_take; lia).
      f_equal. apply map_ext_in. intros i Hi%in_seq. unfold chunk.
      rewrite skipn_firstn_comm, take_take. f_equal. nia.
    + unfold chunk. apply take_ge. rewrite length_drop. lia.
Qed.

Lemma Forall_length_chunks (n count : nat) (l : list Qc) :
  count * n ≤ length l → Forall (fun r => length r = n) (chunks n count l).
Proof.
  intros H. unfold chunks. apply Forall_forall. intros r Hr.
  apply list_elem_of_In, in_map_iff in Hr as (i & <- & Hi%in_seq).
  apply length_chunk. nia.
Qed.

Lemma length_chunks (n count : nat) (l : list Qc) : length (chunks n count l) = count.
Proof. unfold chunks. by rewrite length_map, length_seq. Qed.

(** Row-major indexing: the [count * r] lanes, grouped by their first index. *)
Lemma seq_mul_concat {A} (f : nat → A) (count r : nat) :
  map f (seq 0 (count * r)) =
  concat (map (fun i => map (fun j => f (i * r + j)) (seq 0 r)) (seq 0 count)).
Proof.
  induction count as [|c IH]; [done|].
  rewrite seq_S, map_app, concat_app. simpl. rewrite app_nil_r, <- IH.
  replace (r + c * r) with (c * r + r) by lia.
  rewrite seq_app, map_app. f_equal. simpl.
  replace (seq (c * r) r) with (seq (c * r + 0) r) by (f_equal; lia).
  by rewrite <- fmap_add_seq, <- list_fmap_compose.
Qed.

Lemma for_each_Ok {A B} (body : A → result B) (g : A → B) (l : list A) :
  (∀ x, x ∈ l → body x = Ok (g x)) → for_each body l = Ok (map g l).
Proof.
  induction l as [|x l IH]; intros H; [done|]. simpl.
  rewrite (H x) by left. simpl. rewrite IH; [done|].
  intros y Hy. apply H. by right.
Qed.

Lemma for_each_Raise {A B} (body : A → result B) (e : exn) (l : list A) :
  l ≠ [] → (∀ x, x ∈ l → body x = Raise e) → for_each body l = Raise e.
Proof.
  destruct l as [|x l]; [done|]. intros _ H. simpl. by rewrite (H x) by left.
Qed.

(** ** [np.convolve] and [_conv] *)

(** The example of the numpy documentation, and what [_conv] keeps of it. *)
Example np_convolve_example :
  (r ← np_convolve (qs [1; 2; 3]%Q) (qs [0; 1; 1 # 2]%Q); Ok (map this r))
  = Ok [0; 1; 5 # 2; 4; 3 # 2]%Q.
Proof. by vm_compute. Qed.

Example conv_example :
  (r ← _conv (qs [1; 2; 3]%Q) (qs [0; 1; 1 # 2]%Q); Ok (map this r))
  = Ok [0; 1; 5 # 2]%Q.
Proof. by vm_compute. Qed.

Lemma np_convolve_Ok (a v : list Qc) :
  a ≠ [] → v ≠ [] →
  ∃ full, np_convolve a v = Ok full ∧ length full = length a + length v - 1.
Proof.
  intros Ha Hv. unfold np_convolve.
  destruct a as [|x a]; [done|]. destruct v as [|y v]; [done|].
  destruct (length (x :: a) <? length (y :: v)); simpl;
    eexists; (split; [reflexivity|]); rewrite length_map, length_seq; simpl; lia.
Qed.

Lemma np_convolve_Raise (a v : list Qc) :
  a = [] ∨ v = [] → np_convolve a v = Raise PrimitiveError.
Proof.
  unfold np_convolve. intros [-> | ->].
  - destruct v; done.
  - destruct a; done.
Qed.

Lemma _conv_Ok (x filt : list Qc) :
  x ≠ [] → filt ≠ [] →
  _conv x filt = Ok (conv_lane filt x) ∧ length (conv_lane filt x) = length x.
Proof.
  intros Hx Hf. unfold conv_lane, _conv.
  destruct (np_convolve_Ok x filt Hx Hf) as (full & -> & Hlen). simpl.
  split; [done|]. rewrite length_take. destruct filt; [done|]. simpl in Hlen. lia.
Qed.

Lemma _conv_Raise (x filt : list Qc) :
  x = [] ∨ filt = [] → _conv x filt = Raise PrimitiveError.
Proof. intros H. unfold _conv. by rewrite np_convolve_Raise. Qed.

(** On lanes of one length [_conv] either returns on all or raises on all. *)
Lemma _conv_dichotomy (n : nat) (filt : list Qc) :
  (n ≠ 0 ∧ filt ≠ [] ∧
     ∀ x, length x = n → _conv x filt = Ok (conv_lane filt x) ∧ length (conv_lane filt x) = n)
  ∨ ((n = 0 ∨ filt = []) ∧ ∀ x, length x = n → _conv x filt = Raise PrimitiveError).
Proof.
  destruct n as [|n].
  - right. split; [by left|]. intros x Hx. apply _conv_Raise. left. by destruct x.
  - destruct filt as [|y filt].
    + right. split; [by right|]. intros x _. apply _conv_Raise. by right.
    + left. split; [done|]. split; [done|]. intros x Hx.
      destruct (_conv_Ok x (y :: filt)) as [H1 H2]; [by destruct x|done|].
      split; [done|]. by rewrite H2.
Qed.

(** ** The two strategies of [convolve] *)

Example convolve_example :
  let array := NdArray [2; 3] (qs [1; 2; 3; 4; 5; 6]%Q) in
  let filt := qs [1 # 2; 1 # 2]%Q in
  (r ← convolve "1.21.0" array filt; Ok (shape r, map this (buf r)))
  = Ok ([2; 3], [1 # 2; 3 # 2; 5 # 2; 2; 9 # 2; 11 # 2]%Q)
  ∧ convolve "1.11.3" array filt = convolve "1.21.0" array filt.
Proof. by vm_compute. Qed.

Lemma forallb_length_eq (n : nat) (rows : list (list Qc)) :
  Forall (fun r => length r = n) rows →
  forallb (fun r => length r =? n) rows = true.
Proof.
  intros H. apply forallb_forall. intros r Hr%list_elem_of_In.
  apply Nat.eqb_eq. by eapply Forall_forall in H.
Qed.

(** The loop over lanes shared by [np.vectorize] and [np.apply_along_axis]. *)
Lemma lanes_loop_Ok (n count : nat) (filt l : list Qc) :
  n ≠ 0 → filt ≠ [] → count * n ≤ length l →
  for_each (fun x => _conv x filt) (chunks n count l)
  = Ok (map (conv_lane filt) (chunks n count l))
  ∧ Forall (fun r => length r = n) (map (conv_lane filt) (chunks n count l)).
Proof.
  intros Hn Hf Hl.
  pose proof (Forall_length_chunks n count l Hl) as Hlen.
  destruct (_conv_dichotomy n filt) as [(_ & _ & H)|[[?|?] _]]; [|done..].
  split.
  - apply for_each_Ok. intros x Hx. apply H. by eapply Forall_forall in Hlen.
  - apply Forall_fmap. eapply Forall_impl; [exact Hlen|]. intros x Hx. by apply H.
Qed.

Lemma lanes_loop_Raise (n count : nat) (filt l : list Qc) :
  n = 0 ∨ filt = [] → count ≠ 0 → count * n ≤ length l →
  for_each (fun x => _conv x filt) (chunks n count l) = Raise PrimitiveError.
Proof.
  intros Hbad Hc Hl.
  pose proof (Forall_length_chunks n count l Hl) as Hlen.
  destruct (_conv_dichotomy n filt) as [(? & ? & _)|[_ H]]; [by destruct Hbad|].
  apply for_each_Raise.
  - intros E. apply (f_equal length) in E. rewrite length_chunks in E. done.
  - intros x Hx. apply H. by eapply Forall_forall in Hlen.
Qed.

Lemma convolve_vectorized_lanes (array : ndarray) (filt : list Qc) :
  wf_ndarray array → convolve_vectorized array filt = convolve_lanes array filt.
Proof.
  destruct array as [shp l]. unfold wf_ndarray, convolve_vectorized,
    np_vectorize_nm_k, convolve_lanes, lanes. simpl. intros Hwf.
  destruct (split_last shp) as [[lead n]|] eqn:E; [|done].
  apply split_last_Some in E as ->.
  rewrite size_of_app in Hwf. simpl in Hwf. rewrite Nat.mul_1_r in Hwf.
  change (fun x => res ← np_convolve x filt; Ok (take (length x) res))
    with (fun x => _conv x filt).
  destruct (size_of lead) as [|c] eqn:Ec.
  { rewrite orb_true_r. done. }
  destruct (decide (n = 0 ∨ filt = [])) as [Hbad|Hgood].
  - rewrite lanes_loop_Raise by (done || lia). simpl.
    destruct Hbad as [-> | ->]; [done|]. by rewrite !orb_true_r.
  - assert (n ≠ 0 ∧ filt ≠ []) as [Hn Hf] by (split; intros ->; tauto).
    destruct (lanes_loop_Ok n (S c) filt l Hn Hf ltac:(lia)) as [-> Hlen].
    simpl. destruct n; [done|]. destruct filt; [done|]. simpl.
    inversion_clear Hlen as [|?? H0 Hrest]. rewrite H0, Nat.eqb_refl. simpl.
    unfold chunks in Hrest. rewrite (forallb_length_eq _ _ Hrest). done.
Qed.

Lemma chunk_0_all (n : nat) (l : list Qc) : length l = n → chunk n 0 l = l.
Proof. intros <-. unfold chunk. simpl. by rewrite drop_0, firstn_all. Qed.

Lemma convolve_manual_1d (n : nat) (l filt : list Qc) :
  length l = n →
  convolve_manual (NdArray [n] l) filt = convolve_lanes (NdArray [n] l) filt.
Proof.
  intros Hl. unfold convolve_manual, convolve_lanes, lanes, chunks. simpl.
  rewrite chunk_0_all by done.
  destruct (_conv_dichotomy n filt) as [(Hn & Hf & H)|[Hbad H]].
  - destruct (H l Hl) as [-> Hlen]. simpl. unfold array1. rewrite Hlen, app_nil_r.
    destruct n; [done|]. by destruct filt.
  - rewrite H by done. simpl. destruct Hbad as [-> | ->]; [done|]. by rewrite orb_true_r.
Qed.

Lemma for_each_map {A B C} (body : B → result C) (h : A → B) (l : list A) :
  for_each body (map h l) = for_each (fun x => body (h x)) l.
Proof. induction l as [|x l IH]; [done|]. simpl. by rewrite IH. Qed.

Lemma for_each_post {A B C} (body : A → result B) (g : B → C) (l : list A) :
  for_each (fun x => y ← body x; Ok (g y)) l = ys ← for_each body l; Ok (map g ys).
Proof.
  induction l as [|x l IH]; [done|]. simpl. rewrite IH.
  destruct (body x); [|done]. simpl. by destruct (for_each body l).
Qed.

Lemma for_each_ext_in {A B} (f g : A → result B) (l : list A) :
  (∀ x, x ∈ l → f x = g x) → for_each f l = for_each g l.
Proof.
  induction l as [|x l IH]; intros H; [done|]. simpl.
  rewrite (H x) by left. rewrite IH; [done|]. intros y Hy. apply H. by right.
Qed.

Lemma concat_map_concat {A} (ll : list (list (list A))) :
  concat (map (fun l => concat l) ll) = concat (concat ll).
Proof.
  induction ll as [|l ll IH]; [done|]. simpl. by rewrite concat_app, IH.
Qed.

Lemma np_stack_same (shp : list nat) (arrays : list ndarray) :
  arrays ≠ [] → Forall (fun a => shape a = shp) arrays →
  np_stack arrays = Ok (NdArray (length arrays :: shp) (concat (map buf arrays))).
Proof.
  intros Hne Hall. unfold np_stack. destruct arrays as [|a0 arrays]; [done|].
  assert (shape a0 = shp) as Hs by (by inversion Hall).
  rewrite Hs. 
  replace (forallb _ _) with true; [done|]. symmetry.
  apply forallb_forall. intros a Ha%list_elem_of_In.
  apply bool_decide_eq_true. by eapply Forall_forall in Hall.
Qed.

Lemma convolve_manual_2d (r n : nat) (l filt : list Qc) :
  length l = r * n →
  convolve_manual (NdArray [r; n] l) filt = convolve_lanes (NdArray [r; n] l) filt.
Proof.
  intros Hl. unfold convolve_manual, convolve_lanes, lanes. simpl.
  rewrite !Nat.mul_1_r. rewrite for_each_map. simpl.
  rewrite (for_each_post (fun i => _conv (chunk n i l) filt) array1).
  rewrite <- (for_each_map (fun x => _conv x filt) (fun i => chunk n i l)).
  fold (chunks n r l).
  destruct r as [|r]; [simpl; by rewrite orb_true_r|].
  destruct (decide (n = 0 ∨ filt = [])) as [Hbad|Hgood].
  - rewrite lanes_loop_Raise by (done || lia). simpl.
    destruct Hbad as [-> | ->]; [done|]. by rewrite !orb_true_r.
  - assert (n ≠ 0 ∧ filt ≠ []) as [Hn Hf] by (split; intros ->; tauto).
    destruct (lanes_loop_Ok n (S r) filt l Hn Hf ltac:(lia)) as [-> Hlen].
    destruct n; [done|]. destruct filt; [done|].
    cbn [mbind result_bind rbind orb Nat.eqb length].
    rewrite (np_stack_same [S n]).
    + rewrite length_map, length_map, length_chunks. f_equal. f_equal.
      rewrite map_map. simpl. by rewrite map_id.
    + done.
    + apply Forall_fmap. eapply Forall_impl; [exact Hlen|].
      intros x Hx. simpl. by rewrite Hx.
Qed.

Lemma np_apply_along_axis_1_lanes (r n : nat) (l filt : list Qc) :
  r * n ≤ length l →
  np_apply_along_axis_1 (fun x => _conv x filt) (NdArray [r; n] l)
  = convolve_lanes (NdArray [r; n] l) filt.
Proof.
  intros Hl. unfold np_apply_along_axis_1, convolve_lanes, lanes. simpl.
  rewrite !Nat.mul_1_r.
  destruct r as [|r]; [simpl; by rewrite orb_true_r|].
  destruct (decide (n = 0 ∨ filt = [])) as [Hbad|Hgood].
  - rewrite lanes_loop_Raise by (done || lia). simpl.
    destruct Hbad as [-> | ->]; [done|]. by rewrite !orb_true_r.
  - assert (n ≠ 0 ∧ filt ≠ []) as [Hn Hf] by (split; intros ->; tauto).
    destruct (lanes_loop_Ok n (S r) filt l Hn Hf ltac:(lia)) as [-> Hlen].
    simpl. destruct n; [done|]. destruct filt; [done|]. simpl.
    inversion_clear Hlen as [|?? H0 Hrest]. rewrite H0, Nat.eqb_refl. simpl.
    unfold chunks in Hrest. rewrite (forallb_length_eq _ _ Hrest). done.
Qed.

Lemma convolve_manual_3d (a r n : nat) (l filt : list Qc) :
  length l = a * (r * n) →
  convolve_manual (NdArray [a; r; n] l) filt = convolve_lanes (NdArray [a; r; n] l) filt.
Proof.
  intros Hl. unfold convolve_manual. simpl. rewrite !Nat.mul_1_r.
  rewrite for_each_map. simpl.
  rewrite (for_each_ext_in _
    (fun i => convolve_lanes (NdArray [r; n] (chunk (r * n) i l)) filt)).
  2:{ intros i Hi%elem_of_seq. apply np_apply_along_axis_1_lanes.
      rewrite length_chunk; [done|]. nia. }
  unfold convolve_lanes, lanes. simpl. rewrite !Nat.mul_1_r.
  destruct a as [|a]; [simpl; by rewrite orb_true_r|].
  destruct (decide (n = 0 ∨ r = 0 ∨ filt = [])) as [Hbad|Hgood].
  - assert ((n =? 0) || (r =? 0) || (length filt =? 0) = true) as ->
      by (destruct Hbad as [-> | [-> | ->]]; by rewrite ?orb_true_r).
    assert ((n =? 0) || (S a * r =? 0) || (length filt =? 0) = true) as ->
      by (destruct Hbad as [-> | [-> | ->]]; by rewrite ?Nat.mul_0_r, ?orb_true_r).
    by rewrite (for_each_Raise _ PrimitiveError).
  - assert (n ≠ 0 ∧ r ≠ 0 ∧ filt ≠ []) as (Hn & Hr & Hf)
      by (repeat split; intros ->; tauto).
    assert ((n =? 0) || (r =? 0) || (length filt =? 0) = false) as ->
      by (destruct n, r, filt; done).
    assert ((n =? 0) || (S a * r =? 0) || (length filt =? 0) = false) as ->
      by (destruct n, r, filt; done).
    rewrite (for_each_Ok _
      (fun i => NdArray [r; n] (concat (map (conv_lane filt) (chunks n r (chunk (r * n) i l))))))
      by done.
    cbn [mbind result_bind rbind].
    rewrite (np_stack_same [r; n]).
    + rewrite length_map, length_seq. f_equal. f_equal.
      rewrite map_map. cbn [buf].
      unfold chunks at 2. rewrite map_map.
      rewrite (seq_mul_concat (fun k => conv_lane filt (chunk n k l)) (S a) r).
      rewrite <- concat_map_concat, map_map. f_equal.
      apply map_ext. intros i. f_equal. unfold chunks. rewrite map_map.
      apply map_ext_in. intros j Hj%in_seq. f_equal. apply chunk_chunk. lia.
    + done.
    + apply Forall_fmap. by apply Forall_forall.
Qed.

(** On arrays of one, two or three dimensions the manual strategy does what
    the vectorised one does. *)
Lemma convolve_manual_lanes (array : ndarray) (filt : list Qc) :
  wf_ndarray array → 1 ≤ ndim array ≤ 3 →
  convolve_manual array filt = convolve_lanes array filt.
Proof.
  destruct array as [shp l]. unfold wf_ndarray, ndim. simpl. intros Hwf Hd.
  destruct shp as [|a [|r [|n [|? ?]]]]; simpl in *; try lia.
  - apply convolve_manual_1d. lia.
  - apply convolve_manual_2d. lia.
  - apply convolve_manual_3d. lia.
Qed.

Lemma convolve_manual_UnsupportedShape (array : ndarray) (filt : list Qc) :
  3 < ndim array → convolve_manual array filt = Raise UnsupportedShapeError.
Proof.
  intros H. unfold convolve_manual. by rewrite (proj2 (Nat.ltb_lt _ _) H).
Qed.

Lemma lanes_convolve_lanes (array out : ndarray) (filt : list Qc) :
  wf_ndarray array → convolve_lanes array filt = Ok out →
  shape out = shape array ∧ wf_ndarray out ∧ filt ≠ [] ∧
  Forall (fun x => x ≠ []) (lanes array) ∧
  lanes out = map (conv_lane filt) (lanes array).
Proof.
  destruct array as [shp l]. unfold wf_ndarray, convolve_lanes, lanes. simpl.
  intros Hwf. destruct (split_last shp) as [[lead n]|] eqn:E; [|done].
  apply split_last_Some in E as Hshp. subst shp.
  rewrite size_of_app in Hwf. simpl in Hwf. rewrite Nat.mul_1_r in Hwf.
  destruct ((n =? 0) || (size_of lead =? 0) || (length filt =? 0)) eqn:Eb; [done|].
  apply orb_false_elim in Eb as [Eb Hf]. apply orb_false_elim in Eb as [Hn Hc].
  apply Nat.eqb_neq in Hn, Hc, Hf.
  assert (filt ≠ []) as Hfilt by (by intros ->).
  intros [= <-]. cbn [shape buf]. rewrite E.
  set (c := size_of lead) in *.
  destruct (lanes_loop_Ok n c filt l) as [_ Hlen]; [done..|lia|].
  pose proof (Forall_length_chunks n c l ltac:(lia)) as Hin.
  repeat split.
  - rewrite size_of_app. fold c. simpl. rewrite Nat.mul_1_r.
    rewrite length_concat.
    assert (∀ rows : list (list Qc), Forall (fun r => length r = n) rows →
              list_sum (map length rows) = length rows * n) as Hsum.
    { induction 1 as [|r rows Hr _ IH]; [done|]. simpl. rewrite Hr, IH. lia. }
    rewrite (Hsum _ Hlen), length_map, length_chunks. done.
  - done.
  - eapply Forall_impl; [exact Hin|]. intros x Hx ->. done.
  - rewrite <- (length_chunks n c l) at 1.
    rewrite <- (length_map (conv_lane filt)).
    by apply chunks_concat.
Qed.

Lemma conv_lane_spec (filt x : list Qc) :
  x ≠ [] → filt ≠ [] →
  ∃ full, np_convolve x filt = Ok full ∧ conv_lane filt x = take (length x) full
          ∧ length (conv_lane filt x) = length x.
Proof.
  intros Hx Hf. destruct (_conv_Ok x filt Hx Hf) as [_ Hlen].
  destruct (np_convolve_Ok x filt Hx Hf) as (full & Hfull & _).
  exists full. split; [done|]. split; [|done].
  unfold conv_lane, _conv. by rewrite Hfull.
Qed.

Lemma convolve_lanes_Ok (array : ndarray) (filt : list Qc) :
  wf_ndarray array → 1 ≤ ndim array → 0 < size_of (shape array) → filt ≠ [] →
  convolve_lanes array filt
  = Ok (NdArray (shape array) (concat (map (conv_lane filt) (lanes array)))).
Proof.
  destruct array as [shp l]. unfold wf_ndarray, ndim, convolve_lanes. simpl.
  intros Hwf Hd Hsz Hf. destruct (split_last shp) as [[lead n]|] eqn:E.
  - apply split_last_Some in E as ->. rewrite size_of_app in Hsz. simpl in Hsz.
    destruct n; [lia|]. destruct (size_of lead); [lia|]. by destruct filt.
  - apply split_last_None in E as ->. simpl in Hd. lia.
Qed.

(** The strategy [convolve] takes, in terms of what both compute. *)
Lemma convolve_lanes_eq (np_version : string) (array : ndarray) (filt : list Qc) :
  wf_ndarray array →
  version_ge np_version "1.12.0" = true ∨ 1 ≤ ndim array ≤ 3 →
  convolve np_version array filt = convolve_lanes array filt.
Proof.
  intros Hwf Hcase. unfold convolve.
  destruct (version_ge np_version "1.12.0").
  - by apply convolve_vectorized_lanes.
  - destruct Hcase as [?|?]; [done|]. by apply convolve_manual_lanes.
Qed.

(** ** Claims on [convolve] *)

(** Which strategy a numpy takes: the version strings are compared as
    strings. *)
Example version_ge_examples :
  version_ge "1.21.0" "1.12.0" = true
  ∧ version_ge "1.12.0" "1.12.0" = true
  ∧ version_ge "1.11.3" "1.12.0" = false
  ∧ version_ge "1.10.4" "1.12.0" = false
  ∧ version_ge "1.9.0" "1.12.0" = true.
Proof. repeat split. Qed.

(** C8.  When [convolve] takes the manual strategy (a numpy whose version
    string compares below ['1.12.0']), an array of more than three dimensions
    is rejected with [UnsupportedShapeError]; an array of one, two or three
    dimensions gives an output exactly when the vectorised strategy gives
    one, and then the same output. *)
Theorem convolve_manual_strategy (np_version : string) (array : ndarray) (filt : list Qc) :
  version_ge np_version "1.12.0" = false →
  (3 < ndim array → convolve np_version array filt = Raise UnsupportedShapeError)
  ∧ (wf_ndarray array → 1 ≤ ndim array ≤ 3 →
       ∀ out, convolve np_version array filt = Ok out
              ↔ convolve_vectorized array filt = Ok out).
Proof.
  intros Hv. unfold convolve. rewrite Hv. split.
  - apply convolve_manual_UnsupportedShape.
  - intros Hwf Hd out.
    by rewrite convolve_manual_lanes, convolve_vectorized_lanes.
Qed.

Lemma convolve_manual_strategy_witness :
  convolve "1.11.3" (NdArray [1; 1; 1; 2] [1%Qc; 1%Qc]) [1%Qc]
    = Raise UnsupportedShapeError
  ∧ (∀ out, convolve "1.11.3" (NdArray [1; 1; 2] [1%Qc; 1%Qc]) [1%Qc] = Ok out
            ↔ convolve_vectorized (NdArray [1; 1; 2] [1%Qc; 1%Qc]) [1%Qc] = Ok out).
Proof.
  split.
  - apply (convolve_manual_strategy "1.11.3" (NdArray [1; 1; 1; 2] [1%Qc; 1%Qc]) [1%Qc]);
      [reflexivity | unfold ndim; simpl; lia].
  - apply (convolve_manual_strategy "1.11.3" (NdArray [1; 1; 2] [1%Qc; 1%Qc]) [1%Qc]);
      [reflexivity | reflexivity | unfold ndim; simpl; lia].
Defined.

(** C1 does not hold as stated: the manual strategy rejects a 4-D array, and
    [np.convolve] rejects an empty filter and an empty lane. *)
Lemma convolve_not_total :
  convolve "1.11.3" (NdArray [1; 1; 1; 2] [1%Qc; 1%Qc]) [1%Qc]
    = Raise UnsupportedShapeError
  ∧ convolve "1.21.0" (NdArray [2] [1%Qc; 1%Qc]) [] = Raise PrimitiveError
  ∧ convolve "1.21.0" (NdArray [0] []) [1%Qc] = Raise PrimitiveError.
Proof. repeat split. Qed.

(** C1, amended.  For an array of dimension at least one without an axis of
    length zero and a non-empty filter, and, when the manual strategy is taken,
    a dimension of at most three, [convolve] returns an array of the shape of
    its input, each lane of which is the first [len(lane)] entries of
    [np.convolve] of the input lane and the filter; the output buffer is as
    long as the input's. *)
Theorem convolve_onset (np_version : string) (array : ndarray) (filt : list Qc) :
  wf_ndarray array → 1 ≤ ndim array → 0 < size_of (shape array) → filt ≠ [] →
  version_ge np_version "1.12.0" = true ∨ ndim array ≤ 3 →
  ∃ out, convolve np_version array filt = Ok out
    ∧ shape out = shape array
    ∧ length (buf out) = length (buf array)
    ∧ Forall2 (fun x y => ∃ full, np_convolve x filt = Ok full
                                  ∧ y = take (length x) full)
        (lanes array) (lanes out).
Proof.
  intros Hwf Hd Hsz Hf Hcase.
  rewrite convolve_lanes_eq; [|done|destruct Hcase; [by left|right; lia]].
  pose proof (convolve_lanes_Ok array filt Hwf Hd Hsz Hf) as Hout.
  eexists. split; [exact Hout|].
  destruct (lanes_convolve_lanes _ _ _ Hwf Hout) as (Hs & Hwf' & _ & Hne & Hl).
  split; [done|]. split.
  - unfold wf_ndarray in *. by rewrite Hwf', Hs, Hwf.
  - rewrite Hl. apply Forall2_fmap_r, Forall_Forall2_diag.
    eapply Forall_impl; [exact Hne|]. intros x Hx. simpl.
    destruct (conv_lane_spec filt x Hx Hf) as (full & ? & ? & _). by exists full.
Qed.

Lemma convolve_onset_witness :
  ∃ out, convolve "1.11.3" (NdArray [1; 2] [1%Qc; 1%Qc]) [1%Qc] = Ok out
    ∧ shape out = [1; 2]
    ∧ length (buf out) = 2
    ∧ Forall2 (fun x y => ∃ full, np_convolve x [1%Qc] = Ok full
                                  ∧ y = take (length x) full)
        (lanes (NdArray [1; 2] [1%Qc; 1%Qc])) (lanes out).
Proof.
  apply (convolve_onset "1.11.3" (NdArray [1; 2] [1%Qc; 1%Qc]) [1%Qc]);
    [reflexivity | unfold ndim; simpl; lia | simpl; lia | discriminate | right; unfold ndim; simpl; lia].
Defined.

(** ** Swapping the first two axes *)

Example np_transpose_1_0_2_example :
  (r ← np_transpose_1_0_2
         (NdArray [2; 2; 3] (qs [10; 11; 12; 20; 21; 22; 30; 31; 32; 40; 41; 42]%Q));
   Ok (shape r, map this (buf r)))
  = Ok ([2; 2; 3], [10; 11; 12; 30; 31; 32; 20; 21; 22; 40; 41; 42]%Q).
Proof. by vm_compute. Qed.

Lemma sigma_grid (a b i j : nat) : i < a → sigma a b (j * a + i) = i * b + j.
Proof.
  intros Hi. unfold sigma.
  replace (j * a + i) with (i + j * a) by lia.
  rewrite Nat.Div0.mod_add, Nat.div_add by lia.
  rewrite Nat.mod_small, Nat.div_small by done. lia.
Qed.

Lemma sigma_lt (a b k : nat) : k < b * a → sigma a b k < a * b.
Proof.
  intros Hk. unfold sigma.
  assert (a ≠ 0) as Ha by (intros ->; lia).
  pose proof (Nat.mod_upper_bound k a Ha).
  assert (k / a < b) by (apply Nat.Div0.div_lt_upper_bound; lia).
  nia.
Qed.

Lemma sigma_sigma (a b k : nat) : k < a * b → sigma a b (sigma b a k) = k.
Proof.
  intros Hk. unfold sigma at 2.
  assert (b ≠ 0) as Hb by (intros ->; lia).
  rewrite sigma_grid by (apply Nat.Div0.div_lt_upper_bound; lia).
  pose proof (Nat.div_mod_eq k b). lia.
Qed.

Lemma chunk_concat_lookup (n k : nat) (rows : list (list Qc)) (x : list Qc) :
  Forall (fun r => length r = n) rows → rows !! k = Some x →
  chunk n k (concat rows) = x.
Proof.
  intros Hlen Hk. pose proof (chunks_concat n rows Hlen) as E.
  rewrite <- E in Hk. unfold chunks in Hk.
  rewrite list_lookup_fmap in Hk.
  destruct (seq 0 (length rows) !! k) as [k'|] eqn:Ek; [|done].
  apply lookup_seq in Ek as [-> _]. simpl in Hk. by injection Hk.
Qed.

Lemma chunk_concat_map (n count k : nat) (L : nat → list Qc) :
  (∀ i, i < count → length (L i) = n) → k < count →
  chunk n k (concat (map L (seq 0 count))) = L k.
Proof.
  intros Hlen Hk. apply chunk_concat_lookup.
  - apply Forall_fmap, Forall_forall. intros i Hi%elem_of_seq. apply Hlen. lia.
  - rewrite list_lookup_fmap, lookup_seq_lt by done. done.
Qed.

Lemma chunks_concat_map (n count : nat) (L : nat → list Qc) :
  (∀ i, i < count → length (L i) = n) →
  chunks n count (concat (map L (seq 0 count))) = map L (seq 0 count).
Proof.
  intros Hlen. unfold chunks. apply map_ext_in. intros k Hk%in_seq.
  apply chunk_concat_map; [done|lia].
Qed.

Lemma np_transpose_1_0_2_lanes (a b n : nat) (L : nat → list Qc) :
  (∀ k, k < a * b → length (L k) = n) →
  np_transpose_1_0_2 (NdArray [a; b; n] (concat (map L (seq 0 (a * b)))))
  = Ok (NdArray [b; a; n] (concat (map (fun k => L (sigma a b k)) (seq 0 (b * a))))).
Proof.
  intros Hlen. unfold np_transpose_1_0_2. simpl. do 2 f_equal.
  rewrite (seq_mul_concat (fun k => L (sigma a b k)) b a).
  rewrite <- concat_map_concat, map_map. f_equal.
  apply map_ext_in. intros j Hj%in_seq. f_equal.
  apply map_ext_in. intros i Hi%in_seq.
  rewrite sigma_grid by lia. apply chunk_concat_map; [done|nia].
Qed.

(** A well-formed buffer is the concatenation of its lanes. *)
Lemma buf_concat_lanes (n count : nat) (l : list Qc) :
  length l = count * n →
  l = concat (map (fun k => chunk n k l) (seq 0 count))
  ∧ ∀ k, k < count → length (chunk n k l) = n.
Proof.
  intros Hl. split.
  - symmetry. by apply concat_chunks.
  - intros k Hk. apply length_chunk. nia.
Qed.

(** Transposing, working on every lane, and transposing back is working on
    every lane. *)
Lemma transpose_convolve_transpose_lanes (a b n : nat) (L : nat → list Qc)
    (filt : list Qc) :
  (∀ k, k < a * b → length (L k) = n) → 0 < a → 0 < b → 0 < n → filt ≠ [] →
  (t ← np_transpose_1_0_2 (NdArray [a; b; n] (concat (map L (seq 0 (a * b)))));
   c ← convolve_lanes t filt;
   np_transpose_1_0_2 c)
  = Ok (NdArray [a; b; n]
          (concat (map (fun k => conv_lane filt (L k)) (seq 0 (a * b))))).
Proof.
  intros HL Ha Hb Hn Hf.
  assert (∀ x, length x = n → length (conv_lane filt x) = n) as HF.
  { intros x Hx. destruct (_conv_Ok x filt) as [_ H]; [|done|by rewrite H].
    intros ->. simpl in Hx. lia. }
  assert (∀ k, k < b * a → length (L (sigma a b k)) = n) as HL1.
  { intros k Hk. apply HL. by apply sigma_lt. }
  assert (∀ (G : nat → list Qc) c, (∀ k, k < c → length (G k) = n) →
            length (concat (map G (seq 0 c))) = c * n) as Hsum.
  { intros G c HG. induction c as [|c IH]; [done|].
    rewrite seq_S, map_app, concat_app, length_app, IH by (intros; apply HG; lia).
    simpl. rewrite length_app, HG by lia. simpl. lia. }
  rewrite np_transpose_1_0_2_lanes by done.
  cbn [mbind result_bind rbind].
  rewrite convolve_lanes_Ok; [| |unfold ndim; simpl; lia|simpl; nia|done].
  2:{ unfold wf_ndarray. simpl. rewrite (Hsum (fun k => L (sigma a b k))) by done. lia. }
  unfold lanes. simpl. rewrite !Nat.mul_1_r.
  rewrite (chunks_concat_map n (b * a) (fun k => L (sigma a b k))) by done.
  rewrite map_map.
  cbn [mbind result_bind rbind].
  rewrite (np_transpose_1_0_2_lanes b a n (fun k => conv_lane filt (L (sigma a b k))))
    by (intros k Hk; by apply HF, HL1).
  do 3 f_equal.
  apply map_ext_in. intros k Hk%in_seq. rewrite sigma_sigma by lia. done.
Qed.

Lemma transpose_convolve_transpose (a b n : nat) (l filt : list Qc) :
  length l = a * b * n → 0 < a → 0 < b → 0 < n → filt ≠ [] →
  (t ← np_transpose_1_0_2 (NdArray [a; b; n] l);
   c ← convolve_lanes t filt;
   np_transpose_1_0_2 c)
  = convolve_lanes (NdArray [a; b; n] l) filt.
Proof.
  intros Hl Ha Hb Hn Hf.
  destruct (buf_concat_lanes n (a * b) l Hl) as [El HL].
  rewrite (convolve_lanes_Ok (NdArray [a; b; n] l));
    [|by unfold wf_ndarray; simpl; lia|unfold ndim; simpl; lia|simpl; nia|done].
  unfold lanes. simpl. rewrite !Nat.mul_1_r. unfold chunks. rewrite map_map.
  rewrite <- (transpose_convolve_transpose_lanes a b n (fun k => chunk n k l))
    by done.
  by rewrite <- El.
Qed.

(** ** binary64 arithmetic *)

Section Binary64.
Local Open Scope Z_scope.

Lemma digits2_pos_size (m : positive) : digits2_pos m = Pos.size m.
Proof. induction m as [m IH|m IH|]; simpl; by rewrite ?IH. Qed.

Lemma digits2_pos_bounds (m : positive) :
  2 ^ (Z.pos (digits2_pos m) - 1) ≤ Z.pos m < 2 ^ Z.pos (digits2_pos m).
Proof.
  rewrite digits2_pos_size. split.
  - pose proof (Pos.size_le m) as H.
    apply Pos2Z.pos_le_pos in H. rewrite Pos2Z.inj_pow in H.
    change (Z.pos m~0) with (2 * Z.pos m) in H.
    replace (Z.pos (Pos.size m)) with (Z.pos (Pos.size m) - 1 + 1) in H by lia.
    rewrite Z.pow_add_r in H by lia. lia.
  - pose proof (Pos.size_gt m) as H.
    apply Pos2Z.pos_lt_pos in H. by rewrite Pos2Z.inj_pow in H.
Qed.

Lemma digits2_pos_unique (m : positive) (d : Z) :
  2 ^ (d - 1) ≤ Z.pos m < 2 ^ d → Z.pos (digits2_pos m) = d.
Proof.
  intros [Hlo Hhi]. pose proof (digits2_pos_bounds m) as [Hlo' Hhi'].
  assert (0 < d).
  { destruct (Z.ltb_spec 0 d); [done|]. 
    rewrite Z.pow_neg_r in Hlo by lia.
    destruct (Z.eqb_spec d 0) as [->|]; [simpl in Hhi; lia|].
    rewrite Z.pow_neg_r in Hhi by lia. lia. }
  assert (d - 1 < Z.pos (digits2_pos m)).
  { apply (Z.pow_lt_mono_r_iff 2); lia. }
  assert (Z.pos (digits2_pos m) - 1 < d).
  { apply (Z.pow_lt_mono_r_iff 2); lia. }
  lia.
Qed.

Lemma Pos_iter_xO (m d : positive) : Z.pos (Pos.iter xO m d) = Z.pos m * 2 ^ Z.pos d.
Proof.
  induction d as [|d IH] using Pos.peano_ind.
  - simpl. lia.
  - rewrite Pos.iter_succ, Pos2Z.inj_xO, IH, Pos2Z.inj_succ, Z.pow_succ_r by lia. lia.
Qed.

Lemma iter_pos_Pos_iter {A} (f : A → A) (p : positive) (x : A) :
  SpecFloat.iter_pos f p x = Pos.iter f x p.
Proof.
  revert x. induction p as [p IH|p IH|]; intros x; simpl; [|by rewrite !IH|done].
  rewrite !IH. by rewrite <- !Pos.iter_swap.
Qed.

Lemma shr_1_even (k : positive) :
  shr_1 (Build_shr_record (Z.pos k~0) false false) = Build_shr_record (Z.pos k) false false.
Proof. done. Qed.

Lemma shr_exact (p : positive) (M : positive) (K : Z) :
  Z.pos M = K * 2 ^ Z.pos p →
  SpecFloat.iter_pos shr_1 p (Build_shr_record (Z.pos M) false false)
  = Build_shr_record K false false.
Proof.
  rewrite iter_pos_Pos_iter. revert M K.
  induction p as [|p IH] using Pos.peano_ind; intros M K HM.
  - cbn [Pos.iter]. change (2 ^ 1) with 2 in HM.
    destruct M as [M|M|]; try lia.
    rewrite shr_1_even. f_equal. lia.
  - rewrite Pos.iter_succ. rewrite Pos2Z.inj_succ, Z.pow_succ_r in HM by lia.
    rewrite (IH M (K * 2)) by lia.
    assert (0 < K) by nia.
    destruct K as [|k|k]; try lia. 
    replace (Z.pos k * 2) with (Z.pos k~0) by lia. apply shr_1_even.
Qed.

Lemma exact53_bounds (m : positive) (e v : Z) :
  exact53 m e v → -52 ≤ e ≤ 0 ∧ 0 < v < 2 ^ 53.
Proof.
  intros (Hd & He & Hv & Hm).
  pose proof (digits2_pos_bounds m) as [Hlo Hhi]. rewrite Hd in Hlo, Hhi.
  assert (0 < 2 ^ (- e)) by (apply Z.pow_pos_nonneg; lia).
  assert (- e < 53).
  { apply (Z.pow_lt_mono_r_iff 2); [lia..|]. nia. }
  assert (1 ≤ 2 ^ (- e)) by lia.
  split; [lia|]. split; [done|]. nia.
Qed.

Lemma shr_fexp_canonical (m : positive) (e : Z) :
  digits2_pos m = 53%positive → -1074 ≤ e →
  shr_fexp 53 1024 (Z.pos m) e loc_Exact
  = (Build_shr_record (Z.pos m) false false, e).
Proof.
  intros Hd He. unfold shr_fexp, Zdigits2, fexp, emin. rewrite Hd.
  replace (Z.max (53 + e - 53) (3 - 1024 - 53) - e) with 0 by lia. done.
Qed.

Lemma binary_round_aux_exact (s : bool) (M ez : Z) (m : positive) (e : Z) :
  shr_fexp 53 1024 M ez loc_Exact = (Build_shr_record (Z.pos m) false false, e) →
  digits2_pos m = 53%positive → -1074 ≤ e ≤ 971 →
  binary_round_aux 53 1024 s M ez loc_Exact = S754_finite s m e.
Proof.
  intros Hshr Hd He. unfold binary_round_aux. rewrite Hshr.
  cbn [shr_m loc_of_shr_record round_nearest_even].
  rewrite shr_fexp_canonical by (done || lia). cbn [shr_m].
  by rewrite (proj2 (Z.leb_le _ _)) by lia.
Qed.

(** An integer below [2^53] in absolute value, given by its sign and
    [M * 2^ez], is normalised without rounding. *)
Lemma binary_round_exact (s : bool) (M : positive) (ez v : Z) :
  Z.pos M = v * 2 ^ (- ez) → ez ≤ 0 → 0 < v < 2 ^ 53 →
  ∃ m e, binary_round 53 1024 s M ez = S754_finite s m e
         ∧ exact53 m e v.
Proof.
  intros HM Hez Hv.
  set (dM := Z.pos (digits2_pos M)).
  pose proof (digits2_pos_bounds M) as [Hlo Hhi]. fold dM in Hlo, Hhi.
  assert (0 < 2 ^ (- ez)) as Hpow by (apply Z.pow_pos_nonneg; lia).
  (* the number of digits of [v] is [dM + ez] *)
  assert (- ez < dM) as Hd1.
  { apply (Z.pow_lt_mono_r_iff 2); [lia..|]. nia. }
  assert (2 ^ (dM + ez - 1) ≤ v < 2 ^ (dM + ez)) as [Hvlo Hvhi].
  { replace dM with ((dM + ez) + - ez) in Hhi by lia.
    replace (dM - 1) with ((dM + ez - 1) + - ez) in Hlo by lia.
    rewrite Z.pow_add_r in Hlo, Hhi by lia. nia. }
  assert (dM + ez ≤ 53) as Hd2.
  { assert (dM + ez - 1 < 53); [|lia]. apply (Z.pow_lt_mono_r_iff 2); lia. }
  set (e' := dM + ez - 53).
  unfold binary_round.
  assert (fexp 53 1024 (Z.pos (digits2_pos M) + ez) = e') as ->.
  { unfold fexp, emin, e'. fold dM. lia. }
  unfold shl_align.
  destruct (e' - ez) as [|p|d] eqn:Ed.
  - (* already 53 digits *)
    exists M, ez. assert (dM = 53) as HdM by lia. split.
    + apply binary_round_aux_exact; [|apply Pos2Z.inj; exact HdM|lia].
      apply shr_fexp_canonical; [apply Pos2Z.inj; exact HdM|lia].
    + split; [apply Pos2Z.inj; exact HdM|]. split; [done|]. split; [lia|done].
  - (* more than 53 digits, the low ones zero *)
    assert (Z.pos p ≤ - ez) as Hp by lia.
    assert (Z.pos M = (v * 2 ^ (- ez - Z.pos p)) * 2 ^ Z.pos p) as HM'.
    { rewrite <- Z.mul_assoc, <- Z.pow_add_r by lia. rewrite HM. do 2 f_equal. lia. }
    assert (0 < v * 2 ^ (- ez - Z.pos p)) as Hpos.
    { apply Z.mul_pos_pos; [lia|]. apply Z.pow_pos_nonneg; lia. }
    destruct (v * 2 ^ (- ez - Z.pos p)) as [|m|m] eqn:Em; try lia.
    assert (Z.pos (digits2_pos m) = 53) as Hdm.
    { apply digits2_pos_unique. rewrite <- Em.
      replace (- ez - Z.pos p) with (- e') by lia.
      assert (0 < 2 ^ (- e')) by (apply Z.pow_pos_nonneg; lia).
      replace 53 with ((dM + ez) + - e') at 2 by lia.
      replace (53 - 1) with ((dM + ez - 1) + - e') by lia.
      rewrite !Z.pow_add_r by lia. nia. }
    exists m, e'. split.
    + apply binary_round_aux_exact; [|apply Pos2Z.inj; exact Hdm|lia].
      unfold shr_fexp, Zdigits2. fold dM.
      assert (fexp 53 1024 (dM + ez) - ez = Z.pos p) as ->.
      { unfold fexp, emin. lia. }
      unfold shr_record_of_loc, shr. rewrite (shr_exact p M (Z.pos m)) by done.
      f_equal. lia.
    + split; [apply Pos2Z.inj; exact Hdm|]. split; [lia|]. split; [lia|].
      rewrite <- Em. do 2 f_equal. lia.
  - (* fewer than 53 digits: shifted left *)
    assert (Z.pos (Pos.iter xO M d) = v * 2 ^ (- e')) as Hmz.
    { rewrite Pos_iter_xO, HM, <- Z.mul_assoc, <- Z.pow_add_r by lia.
      do 2 f_equal. lia. }
    assert (Z.pos (digits2_pos (Pos.iter xO M d)) = 53) as Hdm.
    { apply digits2_pos_unique. rewrite Hmz.
      assert (0 < 2 ^ (- e')) by (apply Z.pow_pos_nonneg; lia).
      replace 53 with ((dM + ez) + - e') at 2 by lia.
      replace (53 - 1) with ((dM + ez - 1) + - e') by lia.
      rewrite !Z.pow_add_r by lia. nia. }
    exists (Pos.iter xO M d), e'. split.
    + apply binary_round_aux_exact; [|apply Pos2Z.inj; exact Hdm|lia].
      apply shr_fexp_canonical; [apply Pos2Z.inj; exact Hdm|lia].
    + split; [apply Pos2Z.inj; exact Hdm|]. split; [lia|]. split; [lia|done].
Qed.

Lemma binary_normalize_exact (M : positive) (ez v : Z) :
  Z.pos M = v * 2 ^ (- ez) → ez ≤ 0 → 0 < v < 2 ^ 53 →
  ∃ m e, binary_normalize 53 1024 (Z.pos M) ez false = S754_finite false m e
         ∧ exact53 m e v.
Proof. apply binary_round_exact. Qed.

Lemma float_of_int_exact (v : Z) :
  0 < v < 2 ^ 53 →
  ∃ m e, float_of_int v = Ok (S754_finite false m e) ∧ exact53 m e v.
Proof.
  intros Hv. destruct v as [|M|M]; try lia.
  destruct (binary_normalize_exact M 0 (Z.pos M)) as (m & e & Hn & Hex);
    [simpl; lia|lia|done|].
  exists m, e. split; [|done]. unfold float_of_int. by rewrite Hn.
Qed.

Lemma int_of_float_exact (m : positive) (e v : Z) :
  exact53 m e v → int_of_float (S754_finite false m e) = Ok v.
Proof.
  intros (_ & He & Hv & Hm). unfold int_of_float. cbn [cond_Zopp]. f_equal.
  destruct e as [|p|p]; try lia.
  rewrite Hm. change (- Z.neg p) with (Z.pos p).
  apply Z.div_mul. apply Z.pow_nonzero; lia.
Qed.

Lemma shl_align_fst (m : positive) (e ez : Z) :
  ez ≤ e → Z.pos (fst (shl_align m e ez)) = Z.pos m * 2 ^ (e - ez).
Proof.
  intros Hle. unfold shl_align. destruct (ez - e) as [|p|d] eqn:Ed; try lia.
  - replace (e - ez) with 0 by lia. simpl. lia.
  - simpl. rewrite Pos_iter_xO. do 2 f_equal. lia.
Qed.

Lemma shr_1_spec (m : Z) (r s : bool) :
  0 ≤ m →
  shr_1 (Build_shr_record m r s) = Build_shr_record (m / 2) (Z.odd m) (r || s).
Proof.
  intros Hm. destruct m as [|[p|p|]|p]; try lia; unfold shr_1; f_equal.
  - rewrite Pos2Z.inj_xI. apply (Z.div_unique _ 2 _ 1); lia.
  - rewrite Pos2Z.inj_xO. apply (Z.div_unique _ 2 _ 0); lia.
Qed.

(** [p] right shifts of an exact mantissa: the quotient, the bit shifted out
    last, and whether any bit below it was set. *)
Lemma shr_iter_spec (p : positive) (M : Z) :
  0 ≤ M →
  SpecFloat.iter_pos shr_1 p (Build_shr_record M false false)
  = Build_shr_record (M / 2 ^ Z.pos p)
      (Z.odd (M / 2 ^ (Z.pos p - 1)))
      (negb (M mod 2 ^ (Z.pos p - 1) =? 0)).
Proof.
  intros HM. rewrite iter_pos_Pos_iter.
  induction p as [|p IH] using Pos.peano_ind.
  - cbn [Pos.iter]. rewrite shr_1_spec by done. change (1 - 1) with 0.
    change (2 ^ 0) with 1. rewrite Z.div_1_r, Z.mod_1_r. done.
  - rewrite Pos.iter_succ, IH.
    assert (0 < 2 ^ Z.pos p) by (apply Z.pow_pos_nonneg; lia).
    assert (0 < 2 ^ (Z.pos p - 1)) by (apply Z.pow_pos_nonneg; lia).
    rewrite shr_1_spec by (apply Z.div_pos; lia).
    rewrite Pos2Z.inj_succ. replace (Z.succ (Z.pos p) - 1) with (Z.pos p) by lia.
    f_equal.
    + rewrite Z.pow_succ_r by lia. rewrite Z.div_div by lia. f_equal. lia.
    + replace (2 ^ Z.pos p) with (2 ^ (Z.pos p - 1) * 2)
        by (rewrite Z.mul_comm, <- Z.pow_succ_r by lia; f_equal; lia).
      rewrite Z.rem_mul_r by lia.
      rewrite Zodd_mod.
      pose proof (Z.mod_pos_bound M (2 ^ (Z.pos p - 1)) ltac:(lia)) as Ha.
      pose proof (Z.mod_pos_bound (M / 2 ^ (Z.pos p - 1)) 2 ltac:(lia)) as Hb.
      generalize dependent (M mod 2 ^ (Z.pos p - 1)).
      generalize dependent ((M / 2 ^ (Z.pos p - 1)) mod 2).
      intros b Hb a _ Ha.
      destruct (Z.eqb_spec a 0), (Z.eqb_spec b 1),
        (Z.eqb_spec (a + 2 ^ (Z.pos p - 1) * b) 0);
        cbn [negb orb]; try done; exfalso; nia.
Qed.

Lemma Zdigits2_bounds (m : Z) :
  0 < m → 2 ^ (Zdigits2 m - 1) ≤ m < 2 ^ Zdigits2 m.
Proof. destruct m as [|p|p]; try lia. intros _. apply digits2_pos_bounds. Qed.

Lemma Zdigits2_nonneg (m : Z) : 0 ≤ Zdigits2 m.
Proof. destruct m; simpl; lia. Qed.

Lemma shr_m_iter (p : positive) (m : Z) (r s : bool) :
  0 ≤ m →
  shr_m (SpecFloat.iter_pos shr_1 p (Build_shr_record m r s)) = m / 2 ^ Z.pos p.
Proof.
  intros Hm. rewrite iter_pos_Pos_iter. revert r s.
  induction p as [|p IH] using Pos.peano_ind; intros r s.
  - cbn [Pos.iter]. rewrite shr_1_spec by done. done.
  - rewrite Pos.iter_succ.
    destruct (Pos.iter shr_1 (Build_shr_record m r s) p) as [m' r' s'] eqn:E.
    specialize (IH r s). rewrite E in IH. simpl in IH. subst m'.
    assert (0 < 2 ^ Z.pos p) by (apply Z.pow_pos_nonneg; lia).
    rewrite shr_1_spec by (apply Z.div_pos; lia). cbn [shr_m].
    rewrite Z.div_div by lia. rewrite Pos2Z.inj_succ, Z.pow_succ_r by lia.
    f_equal. lia.
Qed.

Lemma shr_m_record_of_loc (m : Z) (l : location) : shr_m (shr_record_of_loc m l) = m.
Proof. by destruct l as [|[]]. Qed.

(** The mantissa [shr_fexp] leaves has at most 53 digits. *)
Lemma shr_fexp_m_bound (m e : Z) (l : location) :
  0 ≤ m →
  0 ≤ shr_m (shr_fexp 53 1024 m e l).1 < 2 ^ 53.
Proof.
  intros Hm. unfold shr_fexp, shr.
  assert (m < 2 ^ Zdigits2 m) as Hhi.
  { destruct (Z.eqb_spec m 0) as [->|]; [done|]. apply Zdigits2_bounds. lia. }
  pose proof (Zdigits2_nonneg m) as Hd.
  destruct (fexp 53 1024 (Zdigits2 m + e) - e) as [|p|p] eqn:En; cbn [fst].
  - assert (Zdigits2 m ≤ 53) by (unfold fexp, emin in En; lia).
    assert (2 ^ Zdigits2 m ≤ 2 ^ 53) by (apply Z.pow_le_mono_r; lia).
    rewrite shr_m_record_of_loc. lia.
  - assert (Zdigits2 m - Z.pos p ≤ 53) by (unfold fexp, emin in En; lia).
    assert (0 < 2 ^ Z.pos p) by (apply Z.pow_pos_nonneg; lia).
    assert (m / 2 ^ Z.pos p < 2 ^ 53).
    { apply Z.div_lt_upper_bound; [lia|]. rewrite <- Z.pow_add_r by lia.
      eapply Z.lt_le_trans; [exact Hhi|]. apply Z.pow_le_mono_r; lia. }
    assert (0 ≤ m / 2 ^ Z.pos p) by (apply Z.div_pos; lia).
    destruct l as [|[]]; cbn [shr_record_of_loc]; rewrite shr_m_iter; lia.
  - assert (Zdigits2 m ≤ 53) by (unfold fexp, emin in En; lia).
    assert (2 ^ Zdigits2 m ≤ 2 ^ 53) by (apply Z.pow_le_mono_r; lia).
    rewrite shr_m_record_of_loc. lia.
Qed.

Lemma round_nearest_even_bound (m : Z) (l : location) :
  m ≤ round_nearest_even m l ≤ m + 1.
Proof. destruct l as [|[]]; simpl; try lia. destruct (Z.even m); lia. Qed.

(** A finite result of [binary_round_aux] has a mantissa of at most 53
    digits. *)
Lemma binary_round_aux_bound (s : bool) (m e : Z) (l : location) :
  0 ≤ m →
  match binary_round_aux 53 1024 s m e l with
  | S754_finite _ m' _ => Z.pos m' < 2 ^ 53
  | _ => True
  end.
Proof.
  intros Hm. unfold binary_round_aux.
  pose proof (shr_fexp_m_bound m e l Hm) as Hb1.
  destruct (shr_fexp 53 1024 m e l) as [mrs' e'].
  pose proof (round_nearest_even_bound (shr_m mrs') (loc_of_shr_record mrs')) as Hr.
  cbn [fst] in Hb1.
  pose proof (shr_fexp_m_bound (round_nearest_even (shr_m mrs') (loc_of_shr_record mrs'))
                e' loc_Exact ltac:(lia)) as Hb2.
  destruct (shr_fexp 53 1024 _ e' loc_Exact) as [mrs'' e''].
  cbn [fst] in Hb2. destruct (shr_m mrs''); try done.
  destruct (e'' <=? 1024 - 53); [lia|done].
Qed.

Lemma float_mul_bound (x y : float) :
  match float_mul x y with
  | S754_finite _ m _ => Z.pos m < 2 ^ 53
  | _ => True
  end.
Proof.
  unfold float_mul, SFmul. destruct x, y; try done.
  apply binary_round_aux_bound. lia.
Qed.

(** A float that is an integer below [2^53] in absolute value. *)
Lemma exact53_is_int (s : bool) (m : positive) (e v : Z) :
  exact53 m e v → float_is_int (S754_finite s m e) (cond_Zopp s v).
Proof.
  intros Hex. pose proof (exact53_bounds _ _ _ Hex) as [He Hv].
  destruct Hex as (_ & _ & _ & Hm).
  assert (0 < 2 ^ (- e)) as Hpow by (apply Z.pow_pos_nonneg; lia).
  split; [|split].
  - unfold int_of_float. do 2 f_equal. destruct e as [|p|p]; try lia.
    rewrite Hm. change (- Z.neg p) with (Z.pos p). apply Z.div_mul. lia.
  - unfold Qc_of_float, Qc_of_Z. apply Qc_is_canon. simpl. rewrite !Qred_correct.
    destruct e as [|p|p]; try lia.
    + change (- 0) with 0 in Hm. rewrite Z.pow_0_r in Hm.
      change (2 ^ 0)%Q with 1%Q. rewrite Qmult_1_r. f_equiv. f_equal. lia.
    + change (2 ^ Z.neg p)%Q with (/ Qpower_positive (2 # 1) p)%Q.
      rewrite Qpower_decomp_positive.
      assert ((1 ^ p)%positive = 1%positive) as ->
        by (apply Pos2Z.inj; rewrite Pos2Z.inj_pow; apply Z.pow_1_l; lia).
      change (- Z.neg p) with (Z.pos p) in Hm, Hpow.
      destruct (2 ^ Z.pos p) as [|q|q] eqn:Eq; try lia.
      unfold Qeq, Qmult, Qinv, inject_Z. cbn [Qnum Qden].
      destruct s; cbn [cond_Zopp]; nia.
  - intros k. unfold float_gt_int. destruct e as [|p|p]; try lia.
    + simpl in Hm. destruct s; simpl; destruct (Z.ltb_spec k (- v)), (Z.ltb_spec k v),
        (Z.ltb_spec k (Z.neg m * 1)), (Z.ltb_spec k (Z.pos m * 1)); try done; lia.
    + change (- Z.neg p) with (Z.pos p) in Hm, Hpow.
      destruct s; simpl cond_Zopp.
      * destruct (Z.ltb_spec (k * 2 ^ Z.pos p) (- Z.pos m)), (Z.ltb_spec k (- v));
          try done; nia.
      * destruct (Z.ltb_spec (k * 2 ^ Z.pos p) (Z.pos m)), (Z.ltb_spec k v);
          try done; nia.
Qed.

Lemma integer_float_is_int (s : bool) (m : positive) (e : Z) :
  0 ≤ e → float_is_int (S754_finite s m e) (cond_Zopp s (Z.pos m * 2 ^ e)).
Proof.
  intros He. split; [|split].
  - unfold int_of_float. by destruct e.
  - unfold Qc_of_float, Qc_of_Z. apply Qc_is_canon. simpl. rewrite !Qred_correct.
    assert (cond_Zopp s (Z.pos m * 2 ^ e) = cond_Zopp s (Z.pos m) * 2 ^ e) as ->
      by (destruct s; simpl; lia).
    rewrite inject_Z_mult, Zpower_Qpower by done. done.
  - intros k. unfold float_gt_int.
    assert (cond_Zopp s (Z.pos m * 2 ^ e) = cond_Zopp s (Z.pos m) * 2 ^ e) as ->
      by (destruct s; simpl; lia).
    by destruct e.
Qed.

Lemma zero_is_int (s : bool) : float_is_int (S754_zero s) 0.
Proof. split; [done|]. split; [|done]. by apply Qc_is_canon. Qed.

(** What [np.ceil] returns is an integer, unless it is an infinity or NaN. *)
Lemma np_ceil_is_int (x : float) :
  match x with S754_finite _ m _ => Z.pos m < 2 ^ 53 | _ => True end →
  match np_ceil x with
  | S754_nan | S754_infinity _ => True
  | S754_zero _ | S754_finite _ _ _ => ∃ n, float_is_int (np_ceil x) n
  end.
Proof.
  intros Hx. destruct x as [s|s| |s m [|q|p]]; try done.
  - exists 0. apply zero_is_int.
  - eexists. by apply integer_float_is_int.
  - eexists. by apply integer_float_is_int.
  - assert (0 < 2 ^ Z.pos p) as Hpow by (apply Z.pow_pos_nonneg; lia).
    assert (2 ≤ 2 ^ Z.pos p) as Hpow2.
    { change 2 with (2 ^ 1) at 1. apply Z.pow_le_mono_r; lia. }
    unfold np_ceil.
    set (z := - (- cond_Zopp s (Z.pos m) / 2 ^ Z.pos p)).
    assert (- 2 ^ 53 < z < 2 ^ 53 ∧ (s = true → z ≤ 0) ∧ (s = false → 0 < z))
      as (Hz & Hneg & Hpos).
    { unfold z. destruct s; cbn [cond_Zopp].
      - rewrite Z.opp_involutive.
        pose proof (Z.div_pos (Z.pos m) (2 ^ Z.pos p) ltac:(lia) ltac:(lia)).
        assert (Z.pos m / 2 ^ Z.pos p ≤ Z.pos m)
          by (apply Z.div_le_upper_bound; nia).
        repeat split; (lia || done).
      - pose proof (Z_div_mod (- Z.pos m) (2 ^ Z.pos p) ltac:(lia)) as Hdm.
        unfold Z.div. destruct (Z.div_eucl (- Z.pos m) (2 ^ Z.pos p)) as [q r].
        destruct Hdm as [Hq Hr]. repeat split; (nia || done). }
    destruct z as [|Z|Z] eqn:Ez.
    + cbn [binary_normalize]. exists 0. apply zero_is_int.
    + assert (s = false) as -> by (destruct s; [specialize (Hneg eq_refl); lia|done]).
      cbn [binary_normalize].
      destruct (binary_round_exact false Z 0 (Z.pos Z)) as (m' & e' & -> & Hex);
        [simpl; lia|lia|lia|].
      exists (cond_Zopp false (Z.pos Z)). by apply exact53_is_int.
    + assert (s = true) as -> by (destruct s; [done|specialize (Hpos eq_refl); lia]).
      cbn [binary_normalize].
      destruct (binary_round_exact true Z 0 (Z.pos Z)) as (m' & e' & -> & Hex);
        [simpl; lia|lia|lia|].
      exists (cond_Zopp true (Z.pos Z)). by apply exact53_is_int.
Qed.

Lemma nsamples_of_is_int (twindow sfreq : float) :
  match nsamples_of twindow sfreq with
  | S754_nan | S754_infinity _ => True
  | S754_zero _ | S754_finite _ _ _ =>
      ∃ n, float_is_int (nsamples_of twindow sfreq) n
  end.
Proof. apply np_ceil_is_int, float_mul_bound. Qed.

Lemma float_one_eq : float_one = S754_finite false 4503599627370496 (-52).
Proof. by vm_compute. Qed.

Lemma loc_of_shr_record_of_loc (m : Z) (l : location) :
  loc_of_shr_record (shr_record_of_loc m l) = l.
Proof. by destruct l as [|[]]. Qed.

(** Rounding a mantissa that has 53 digits already adds at most one to it. *)
Lemma binary_round_aux_53 (s : bool) (q e : Z) (l : location) (q1 : positive) :
  2 ^ 52 ≤ q < 2 ^ 53 → -1074 ≤ e ≤ 971 →
  round_nearest_even q l = Z.pos q1 → Z.pos q1 < 2 ^ 53 →
  binary_round_aux 53 1024 s q e l = S754_finite s q1 e.
Proof.
  intros Hq He Hr Hq1. pose proof (round_nearest_even_bound q l) as Hb.
  destruct q as [|q|q]; try lia.
  assert (digits2_pos q = 53%positive) as Hd.
  { apply Pos2Z.inj. apply digits2_pos_unique. simpl. lia. }
  assert (digits2_pos q1 = 53%positive) as Hd1.
  { apply Pos2Z.inj. apply digits2_pos_unique. simpl. lia. }
  unfold binary_round_aux, shr_fexp at 1. unfold Zdigits2. rewrite Hd.
  replace (fexp 53 1024 (53 + e) - e) with 0 by (unfold fexp, emin; lia).
  cbn [shr]. rewrite shr_m_record_of_loc, loc_of_shr_record_of_loc, Hr.
  rewrite shr_fexp_canonical by (done || lia). cbn [shr_m].
  by rewrite (proj2 (Z.leb_le _ _)) by lia.
Qed.

Lemma new_location_spec (M r : Z) :
  0 < M → 0 ≤ r < M →
  new_location M r
  = if r =? 0 then loc_Exact else loc_Inexact (2 * r ?= M).
Proof.
  intros HM Hr. unfold new_location, new_location_even, new_location_odd.
  destruct (Z.even M) eqn:Ev; [done|].
  destruct (r =? 0); [done|]. f_equal.
  assert (Z.odd M = true) as Hodd by (rewrite <- Z.negb_even, Ev; done).
  apply Z.odd_spec in Hodd as [k Hk].
  destruct (Z.compare_spec (2 * r + 1) M), (Z.compare_spec (2 * r) M);
    try done; lia.
Qed.

(** [1.0 / x] for a normal [x] that is not a power of two. *)
Lemma float_div_one (s : bool) (m : positive) (e : Z) :
  2 ^ 52 < Z.pos m < 2 ^ 53 → -1074 ≤ e ≤ 969 →
  ∃ q1 : positive,
    float_div float_one (S754_finite s m e) = S754_finite s q1 (-105 - e)
    ∧ 2 ^ 105 - 2 ^ 52 < Z.pos q1 * Z.pos m < 2 ^ 105 + 2 ^ 52.
Proof.
  intros Hm He. rewrite float_one_eq. unfold float_div, SFdiv, SFdiv_core_binary.
  assert (digits2_pos m = 53%positive) as Hd.
  { apply Pos2Z.inj. apply digits2_pos_unique. simpl. lia. }
  unfold Zdigits2. rewrite Hd.
  change (digits2_pos 4503599627370496) with 53%positive.
  assert (Z.min (fexp 53 1024 (53 + -52 - (53 + e))) (-52 - e) = -105 - e) as ->.
  { unfold fexp, emin. lia. }
  replace (-52 - e - (-105 - e)) with 53 by lia.
  change (Z.shiftl 4503599627370496 53) with (2 ^ 105).
  pose proof (Z_div_mod (2 ^ 105) (Z.pos m) ltac:(lia)) as Hdm.
  destruct (Z.div_eucl (2 ^ 105) (Z.pos m)) as [q r]. destruct Hdm as [Hq Hr].
  cbn [xorb]. rewrite new_location_spec by lia.
  change (2 ^ 105) with 40564819207303340847894502572032 in *.
  change (2 ^ 52) with 4503599627370496 in *.
  change (2 ^ 53) with 9007199254740992 in *.
  assert (4503599627370496 ≤ q ≤ 9007199254740990) as Hqb by nia.
  set (l := if r =? 0 then loc_Exact else loc_Inexact (2 * r ?= Z.pos m)).
  assert (∃ q1 : positive, round_nearest_even q l = Z.pos q1
            ∧ 2 * Z.abs (Z.pos q1 * Z.pos m - 40564819207303340847894502572032)
              ≤ Z.pos m) as (q1 & Hq1 & Hdelta).
  { unfold l. destruct (Z.eqb_spec r 0) as [->|Hr0].
    - destruct q as [|q|q]; try lia. exists q. split; [done|]. lia.
    - destruct (Z.compare_spec (2 * r) (Z.pos m)) as [Heq|Hlt|Hgt];
        cbn [round_nearest_even].
      + destruct (Z.even q).
        * destruct q as [|q|q]; try lia. exists q. split; [done|]. lia.
        * destruct (q + 1) as [|q'|q'] eqn:Eq'; try lia. exists q'.
          split; [done|]. nia.
      + destruct q as [|q|q]; try lia. exists q. split; [done|]. lia.
      + destruct (q + 1) as [|q'|q'] eqn:Eq'; try lia. exists q'.
        split; [done|]. nia. }
  pose proof (round_nearest_even_bound q l) as Hrb. rewrite Hq1 in Hrb.
  exists q1. split.
  - apply binary_round_aux_53; (done || lia).
  - lia.
Qed.

(** Rounding a product that is within half a unit in the last place of [1]. *)
Lemma round_near_one (P : positive) :
  2 ^ 105 - 2 ^ 52 < Z.pos P < 2 ^ 105 + 2 ^ 52 →
  ∃ x, binary_round_aux 53 1024 false (Z.pos P) (-105) loc_Exact = x
       ∧ (x = float_one ∨ x = S754_finite false 9007199254740991 (-53)).
Proof.
  intros HP. rewrite float_one_eq.
  change (2 ^ 105) with 40564819207303340847894502572032 in *.
  change (2 ^ 52) with 4503599627370496 in *.
  destruct (Z.le_gt_cases 40564819207303340847894502572032 (Z.pos P)) as [Hge|Hlt].
  - assert (digits2_pos P = 106%positive) as Hd.
    { apply Pos2Z.inj. apply digits2_pos_unique.
      change (2 ^ (106 - 1)) with 40564819207303340847894502572032.
      change (2 ^ 106) with 81129638414606681695789005144064. lia. }
    unfold binary_round_aux, shr_fexp at 1. unfold Zdigits2. rewrite Hd.
    change (fexp 53 1024 (106 + -105) - -105) with 53.
    cbn [shr shr_record_of_loc]. rewrite shr_iter_spec by lia.
    change (2 ^ 53) with 9007199254740992.
    change (2 ^ (53 - 1)) with 4503599627370496.
    assert (Z.pos P / 9007199254740992 = 4503599627370496) as ->
      by (symmetry; apply (Z.div_unique _ _ _ (Z.pos P - 40564819207303340847894502572032)); lia).
    assert (Z.pos P / 4503599627370496 = 9007199254740992) as ->
      by (symmetry; apply (Z.div_unique _ _ _ (Z.pos P - 40564819207303340847894502572032)); lia).
    cbn [shr_m Z.odd].
    destruct (negb _); (eexists; split; [by vm_compute|by left]).
  - assert (digits2_pos P = 105%positive) as Hd.
    { apply Pos2Z.inj. apply digits2_pos_unique.
      change (2 ^ (105 - 1)) with 20282409603651670423947251286016.
      change (2 ^ 105) with 40564819207303340847894502572032. lia. }
    unfold binary_round_aux, shr_fexp at 1. unfold Zdigits2. rewrite Hd.
    change (fexp 53 1024 (105 + -105) - -105) with 52.
    cbn [shr shr_record_of_loc]. rewrite shr_iter_spec by lia.
    change (2 ^ 52) with 4503599627370496.
    change (2 ^ (52 - 1)) with 2251799813685248.
    assert (Z.pos P / 4503599627370496 = 9007199254740991) as ->
      by (symmetry; apply (Z.div_unique _ _ _ (Z.pos P - 40564819207303336344294875201536)); lia).
    cbn [shr_m].
    destruct (Z.odd (Z.pos P / 2251799813685248)), (negb _);
      (eexists; split; [by vm_compute|(by left) || (by right)]).
Qed.

(** [1.0 / x] for a normal [x] that is a power of two, up to its sign. *)
Lemma float_div_one_pow2 (s : bool) (e : Z) :
  -1074 ≤ e ≤ 969 →
  float_div float_one (S754_finite s 4503599627370496 e)
  = S754_finite s 4503599627370496 (-104 - e).
Proof.
  intros He. rewrite float_one_eq. unfold float_div, SFdiv, SFdiv_core_binary.
  change (Zdigits2 4503599627370496) with 53.
  assert (Z.min (fexp 53 1024 (53 + -52 - (53 + e))) (-52 - e) = -105 - e) as ->.
  { unfold fexp, emin. lia. }
  replace (-52 - e - (-105 - e)) with 53 by lia.
  change (Z.div_eucl (Z.shiftl 4503599627370496 53) 4503599627370496)
    with (9007199254740992, 0).
  cbn [xorb]. change (new_location 4503599627370496 0) with loc_Exact.
  apply binary_round_aux_exact; [|done|lia].
  unfold shr_fexp. change (Zdigits2 9007199254740992) with 54.
  replace (fexp 53 1024 (54 + (-105 - e)) - (-105 - e)) with 1
    by (unfold fexp, emin; lia).
  cbn [shr shr_record_of_loc SpecFloat.iter_pos]. rewrite shr_1_even.
  f_equal. lia.
Qed.

(** The window of one sample: for a normal sampling frequency [x] below
    [2^1022] in absolute value, rounding [1.0 / x] and then the product with
    [x] gives [1.0] or the float just below it, and [np.ceil] of either is
    [1.0]. *)
Lemma nsamples_one_sample (s : bool) (m : positive) (e : Z) :
  digits2_pos m = 53%positive → -1074 ≤ e ≤ 969 →
  nsamples_of (float_div float_one (S754_finite s m e)) (S754_finite s m e)
  = float_one.
Proof.
  intros Hd He. pose proof (digits2_pos_bounds m) as Hm. rewrite Hd in Hm.
  change (2 ^ (53 - 1)) with 4503599627370496 in Hm.
  unfold nsamples_of.
  destruct (Z.eq_dec (Z.pos m) 4503599627370496) as [[= ->]|Hne].
  - rewrite float_div_one_pow2 by done. unfold float_mul, SFmul.
    rewrite xorb_nilpotent.
    replace (-104 - e + e) with (-104) by lia. by vm_compute.
  - destruct (float_div_one s m e) as (q1 & -> & Hq1); [|done|].
    { change (2 ^ 52) with 4503599627370496. lia. }
    unfold float_mul, SFmul. rewrite xorb_nilpotent.
    replace (-105 - e + e) with (-105) by lia.
    rewrite <- Pos2Z.inj_mul in Hq1.
    destruct (round_near_one (q1 * m) Hq1) as (x & -> & [-> | ->]); by vm_compute.
Qed.

End Binary64.

Example np_ceil_examples :
  let half (z : Z) := float_div (float_lit z) float_two in
  np_ceil (half 1%Z) = float_one
  ∧ np_ceil (half (-1)%Z) = S754_zero true
  ∧ np_ceil (half 5%Z) = float_lit 3
  ∧ np_ceil (half (-5)%Z) = float_lit (-2)
  ∧ np_ceil (float_lit 7) = float_lit 7
  ∧ float_gt_int (half 5%Z) 2 = true
  ∧ float_gt_int (half 5%Z) 3 = false
  ∧ float_gt_int (float_lit 3) 3 = false.
Proof. by vm_compute. Qed.

(** ** Running [moving_average] *)

Lemma moving_average_run (np_version : string) (epoch : loc) (twindow : float)
    (h : heap) (e : Epochs) (data : ndarray) :
  h !! epoch = Some (ObjEpochs e) → h !! _data e = Some (ObjNdarray data) →
  moving_average np_version epoch twindow h =
    let copy := MkEpochs (info_sfreq e) (times e) (length h) in
    let nsamples := nsamples_of twindow (info_sfreq e) in
    if float_gt_int nsamples (Z.of_nat (length (times e))) then
      (t_last ← getitem_last (times e);
       t_first ← getitem_first (times e);
       Raise (InvalidWindowError twindow (float_sub t_last t_first)),
       h ++ [ObjNdarray data; ObjEpochs copy])
    else
      match smooth np_version nsamples data with
      | Ok out =>
          (Ok (S (length h)),
           h ++ [ObjNdarray data;
                 ObjEpochs (MkEpochs (info_sfreq e) (times e) (S (S (length h))));
                 ObjNdarray out])
      | Raise ex => (Raise ex, h ++ [ObjNdarray data; ObjEpochs copy])
      end.
Proof.
  intros He Hd. 
  pose proof (lookup_lt_Some _ _ _ He) as Hlt.
  unfold moving_average, Epochs_copy.
  unfold mbind, py_bind, load_epochs, load_ndarray, alloc, lift, raise, mret, py_ret.
  rewrite He, Hd. rewrite length_app. simpl.
  rewrite !lookup_app_l by (rewrite ?length_app; simpl; lia).
  rewrite He. cbv zeta.
  replace ((h ++ [ObjNdarray data]) ++ [ObjEpochs (MkEpochs (info_sfreq e) (times e) (length h))])
    with (h ++ [ObjNdarray data; ObjEpochs (MkEpochs (info_sfreq e) (times e) (length h))])
    by (by rewrite <- app_assoc).
  destruct (float_gt_int (nsamples_of twindow (info_sfreq e)) (Z.of_nat (length (times e)))).
  - destruct (getitem_last (times e)); [|done]. simpl.
    destruct (getitem_first (times e)); done.
  - unfold smooth. destruct (boxcar _) as [filt|]; [|done]. simpl.
    replace (length h + 1) with (length h + 1 + 0) at 1 by lia.
    rewrite lookup_app_r by lia.
    replace (length h + 1 + 0 - length h) with 1 by lia. simpl.
    rewrite lookup_app_r by lia. rewrite Nat.sub_diag. simpl.
    destruct (np_transpose_1_0_2 data) as [t|]; [|done]. simpl.
    destruct (convolve np_version t filt) as [c|]; [|done]. simpl.
    destruct (np_transpose_1_0_2 c) as [out|]; [|done].
    unfold setattr__data. rewrite <- app_assoc. simpl.
    rewrite lookup_app_r by lia.
    replace (length h + 1 - length h) with 1 by lia. simpl.
    rewrite insert_app_r_alt by lia.
    replace (length h + 1 - length h) with 1 by lia. simpl.
    rewrite length_app. simpl. do 2 f_equal; [lia|].
    do 4 f_equal. lia.
Qed.

Lemma moving_average_no_epochs (np_version : string) (epoch : loc) (twindow : float)
    (h : heap) :
  (∀ e data, h !! epoch = Some (ObjEpochs e) → h !! _data e ≠ Some (ObjNdarray data)) →
  moving_average np_version epoch twindow h = (Raise PrimitiveError, h).
Proof.
  intros Hno. unfold moving_average, Epochs_copy.
  unfold mbind, py_bind, load_epochs, load_ndarray.
  destruct (h !! epoch) as [[a|e]|] eqn:He; [done| |done].
  destruct (h !! _data e) as [[data|e']|] eqn:Hd; [|done..].
  by destruct (Hno e data).
Qed.

(** The heap after a call: the heap before, followed by the objects the call
    allocated. *)
Lemma moving_average_heap (np_version : string) (epoch : loc) (twindow : float)
    (h : heap) :
  h `prefix_of` (moving_average np_version epoch twindow h).2.
Proof.
  destruct (h !! epoch) as [[a|e]|] eqn:He.
  1, 3: rewrite moving_average_no_epochs; [done|congruence].
  destruct (h !! _data e) as [[data|e']|] eqn:Hd.
  2, 3: rewrite moving_average_no_epochs; [done|congruence].
  rewrite (moving_average_run _ _ _ _ e data) by done. cbv zeta.
  destruct (float_gt_int _ _); [by eexists|].
  destruct (smooth _ _ _); by eexists.
Qed.

(** ** The filter *)

Lemma boxcar_Ok (nsamples : float) (n : Z) :
  float_is_int nsamples n → (0 ≤ n)%Z →
  boxcar nsamples = Ok (repeat (1 / Qc_of_Z n)%Qc (Z.to_nat n)).
Proof.
  intros (Hint & Hq & _) Hn. unfold boxcar, np_ones. rewrite Hint.
  cbn [mbind result_bind rbind]. rewrite (proj2 (Z.ltb_ge _ _) Hn).
  cbn [mbind result_bind rbind]. by rewrite Hq, map_repeat.
Qed.

Lemma boxcar_zero (s : bool) : boxcar (S754_zero s) = Ok [].
Proof. done. Qed.

Lemma float_one_is_int : float_is_int float_one 1.
Proof.
  rewrite float_one_eq.
  apply (exact53_is_int false 4503599627370496 (-52) 1). by repeat split.
Qed.

Lemma boxcar_one : boxcar float_one = Ok [1%Qc].
Proof.
  rewrite (boxcar_Ok float_one 1 float_one_is_int) by lia.
  cbn [Z.to_nat Pos.to_nat Pos.iter_op Nat.add repeat].
  do 2 f_equal; by apply Qc_is_canon.
Qed.

(** A window that is positive and passes the check is an integer between 1
    and the number of time samples. *)
Lemma nsamples_fits (twindow sfreq : float) (len : nat) :
  float_gt_int (nsamples_of twindow sfreq) 0 = true →
  float_gt_int (nsamples_of twindow sfreq) (Z.of_nat len) = false →
  ∃ n, float_is_int (nsamples_of twindow sfreq) n ∧ (1 ≤ n ≤ Z.of_nat len)%Z.
Proof.
  intros Hpos Hfit. pose proof (nsamples_of_is_int twindow sfreq) as Hint.
  destruct (nsamples_of twindow sfreq) as [s|s| |s m ex] eqn:E.
  - done.
  - simpl in Hpos, Hfit. congruence.
  - done.
  - destruct Hint as [n Hn]. exists n. split; [done|].
    destruct Hn as (_ & _ & Hgt). rewrite Hgt in Hpos, Hfit.
    apply Z.ltb_lt in Hpos. apply Z.ltb_ge in Hfit. lia.
Qed.

Lemma length_concat_map_seq (n count : nat) (G : nat → list Qc) :
  (∀ k, k < count → length (G k) = n) →
  length (concat (map G (seq 0 count))) = count * n.
Proof.
  intros HG. induction count as [|c IH]; [done|].
  rewrite seq_S, map_app, concat_app, length_app, IH by (intros; apply HG; lia).
  simpl. rewrite length_app, HG by lia. simpl. lia.
Qed.

Lemma np_transpose_1_0_2_wf (a b n : nat) (l : list Qc) :
  length l = a * b * n →
  ∃ l', np_transpose_1_0_2 (NdArray [a; b; n] l) = Ok (NdArray [b; a; n] l')
        ∧ length l' = b * a * n.
Proof.
  intros Hl. destruct (buf_concat_lanes n (a * b) l Hl) as [El HL].
  pose proof (np_transpose_1_0_2_lanes a b n (fun k => chunk n k l) HL) as Ht.
  rewrite <- El in Ht. eexists. split; [exact Ht|].
  apply (length_concat_map_seq n (b * a) (fun k => chunk n (sigma a b k) l)).
  intros k Hk. apply HL. by apply sigma_lt.
Qed.

Lemma smooth_lanes (np_version : string) (nsamples : float) (k : Z)
    (a b n : nat) (l : list Qc) :
  length l = a * b * n → 0 < a → 0 < b → 0 < n →
  float_is_int nsamples k → (0 < k)%Z →
  smooth np_version nsamples (NdArray [a; b; n] l)
  = convolve_lanes (NdArray [a; b; n] l)
      (repeat (1 / Qc_of_Z k)%Qc (Z.to_nat k)).
Proof.
  intros Hl Ha Hb Hn Hint Hk. unfold smooth. rewrite (boxcar_Ok _ k) by (done || lia).
  set (filt := repeat _ _).
  assert (filt ≠ []) as Hf.
  { unfold filt. destruct (Z.to_nat k) eqn:E; [lia|done]. }
  cbn [mbind result_bind rbind].
  rewrite <- (transpose_convolve_transpose a b n l filt) by done.
  destruct (np_transpose_1_0_2_wf a b n l Hl) as (l' & -> & Hl').
  cbn [mbind result_bind rbind].
  rewrite convolve_lanes_eq; [done|by unfold wf_ndarray; simpl; lia|].
  right. unfold ndim. simpl. lia.
Qed.

(** With an empty filter [convolve] raises inside numpy, whatever its
    strategy and whatever the 3-D array. *)
Lemma convolve_empty_filter (np_version : string) (a b n : nat) (l : list Qc) :
  convolve np_version (NdArray [a; b; n] l) [] = Raise PrimitiveError.
Proof.
  assert (∀ count l', for_each (fun x => _conv x []) (chunks n count l')
            = if count =? 0 then Ok [] else Raise PrimitiveError) as Hloop.
  { intros count l'. destruct count as [|c]; [done|].
    apply for_each_Raise; [done|]. intros x _. apply _conv_Raise. by right. }
  unfold convolve. destruct (version_ge _ _).
  - unfold convolve_vectorized, np_vectorize_nm_k. simpl.
    change (fun x => res ← np_convolve x []; Ok (take (length x) res))
      with (fun x => _conv x []).
    rewrite Hloop. by destruct (_ =? 0).
  - unfold convolve_manual. simpl. rewrite for_each_map. simpl.
    destruct a as [|a]; [done|].
    rewrite (for_each_Raise _ PrimitiveError); [done..|].
    intros i _. unfold np_apply_along_axis_1. simpl.
    rewrite Hloop. by destruct (_ =? 0).
Qed.

(** ** The filter of one sample *)

Lemma conv_at_one (x : list Qc) (n : nat) : conv_at x [1%Qc] n = nth n x 0%Qc.
Proof.
  unfold conv_at. rewrite seq_S, map_app. simpl.
  unfold qsum. rewrite foldr_app. simpl. rewrite Nat.sub_diag. simpl.
  replace (nth n x 0 * 1 + 0)%Qc with (nth n x 0%Qc) by ring.
  assert (∀ (y : Qc) (l : list Qc), Forall (fun x => x = 0%Qc) l → foldr Qcplus y l = y) as Hz.
  { intros y l. induction 1 as [|z l -> _ IH]; [done|]. simpl. rewrite IH. ring. }
  apply Hz, Forall_fmap, Forall_forall. intros m Hm%elem_of_seq. simpl.
  destruct (n - m) as [|[|k]] eqn:E; [lia|..]; simpl; ring.
Qed.

Lemma map_nth_seq (x : list Qc) :
  map (fun n => nth n x 0%Qc) (seq 0 (length x)) = x.
Proof.
  induction x as [|y x IH]; [done|]. simpl. f_equal.
  rewrite <- seq_shift, map_map. exact IH.
Qed.

Lemma conv_lane_one (x : list Qc) : x ≠ [] → conv_lane [1%Qc] x = x.
Proof.
  intros Hx. unfold conv_lane, _conv, np_convolve.
  destruct x as [|y x]; [done|]. cbn [length Nat.ltb Nat.leb Nat.eqb].
  cbn [mbind result_bind rbind].
  replace (S (length x) + 1 - 1) with (S (length x)) by lia.
  rewrite (map_ext _ (fun n => nth n (y :: x) 0%Qc)) by (intros; apply conv_at_one).
  change (S (length x)) with (length (y :: x)).
  rewrite (map_nth_seq (y :: x)). apply firstn_all.
Qed.

(** ** Claims on [moving_average] *)

(** Two trials of one channel and three samples at 10 Hz, averaged over 0.2 s:
    the container returned is the object at 3, its data the object at 4. *)
Example moving_average_example :
  let tenth := float_div float_one (float_lit 10) in
  let fifth := float_div float_two (float_lit 10) in
  let e := MkEpochs (float_lit 10) [float_lit 0; tenth; fifth] 0 in
  let data := NdArray [2; 1; 3] (qs [1; 2; 3; 4; 6; 8]%Q) in
  let '(r, h') := moving_average "1.21.0" 1 fifth [ObjNdarray data; ObjEpochs e] in
  (r, length h',
   match h' !! 3, h' !! 4 with
   | Some (ObjEpochs e'), Some (ObjNdarray a) => Some (_data e', shape a, map this (buf a))
   | _, _ => None
   end)
  = (Ok 3, 5, Some (4, [2; 1; 3], [1 # 2; 3 # 2; 5 # 2; 2; 5; 7]%Q)).
Proof. by vm_compute. Qed.

(** The product is rounded before the ceiling is taken: [0.1 * 10.0] is
    [1.0] in binary64, although the double [0.1] is above one tenth. *)
Example nsamples_of_example :
  let tenth := float_div float_one (float_lit 10) in
  tenth = S754_finite false 7205759403792794 (-56)
  ∧ (2 ^ 56 < 7205759403792794 * 10)%Z
  ∧ nsamples_of tenth (float_lit 10) = float_one.
Proof. by vm_compute. Qed.

Lemma getitem_last_Ok {A} (l : list A) : l ≠ [] → ∃ x, getitem_last l = Ok x.
Proof.
  intros Hl. unfold getitem_last.
  destruct (reverse l) as [|x l'] eqn:E; [|by exists x].
  apply (f_equal reverse) in E. rewrite reverse_involutive in E. done.
Qed.

Lemma lookup_app_new (h l : list pyobj) (k : nat) (o : pyobj) :
  l !! k = Some o → (h ++ l) !! (k + length h) = Some o.
Proof. intros Hk. rewrite lookup_app_r by lia. by rewrite Nat.add_sub. Qed.

(** What [moving_average] returns on a container with at least one trial and
    one channel, for a window of [n] samples that fits. *)
Lemma moving_average_Ok (np_version : string) (epoch : loc) (twindow : float)
    (h : heap) (e : Epochs) (data : ndarray) (n_epochs n_channels : nat) (n : Z) :
  epochs_at h epoch e data n_epochs n_channels →
  0 < n_epochs → 0 < n_channels →
  float_is_int (nsamples_of twindow (info_sfreq e)) n →
  (1 ≤ n ≤ Z.of_nat (length (times e)))%Z →
  let filt := repeat (1 / Qc_of_Z n)%Qc (Z.to_nat n) in
  let out := NdArray (shape data) (concat (map (conv_lane filt) (lanes data))) in
  smooth np_version (nsamples_of twindow (info_sfreq e)) data = Ok out
  ∧ moving_average np_version epoch twindow h
    = (Ok (S (length h)),
       h ++ [ObjNdarray data;
             ObjEpochs (MkEpochs (info_sfreq e) (times e) (S (S (length h))));
             ObjNdarray out]).
Proof.
  intros (He & Hd & Hwf & Hshp) Hne Hnc Hint Hn. cbv zeta.
  destruct data as [shp l]. simpl in Hshp. subst shp.
  unfold wf_ndarray in Hwf. simpl in Hwf.
  assert (0 < length (times e)) as Hnt by lia.
  assert (smooth np_version (nsamples_of twindow (info_sfreq e))
            (NdArray [n_epochs; n_channels; length (times e)] l)
          = Ok (NdArray [n_epochs; n_channels; length (times e)]
                  (concat (map (conv_lane (repeat (1 / Qc_of_Z n)%Qc (Z.to_nat n)))
                               (lanes (NdArray [n_epochs; n_channels; length (times e)] l))))))
    as Hsmooth.
  { rewrite (smooth_lanes _ _ n) by (done || lia).
    apply convolve_lanes_Ok.
    - unfold wf_ndarray. simpl. lia.
    - unfold ndim. simpl. lia.
    - simpl. nia.
    - destruct (Z.to_nat n) eqn:E; [lia|done]. }
  split; [exact Hsmooth|].
  rewrite (moving_average_run _ _ _ _ e _ He Hd). cbv zeta.
  destruct Hint as (_ & _ & Hgt). rewrite Hgt.
  rewrite (proj2 (Z.ltb_ge _ _)) by lia. by rewrite Hsmooth.
Qed.




(** C3 does not hold as stated.  A window of zero samples, or a NaN window,
    passes the check and fails inside numpy; so does a window that fits on a
    container without trials or without channels; and on a container without
    time samples a window that is too long fails with an [IndexError] while
    the message is built.  Each is a failure other than
    [InvalidWindowError]. *)
Lemma moving_average_other_failure :
  let e := MkEpochs (float_lit 1) [float_lit 0] 0 in
  let data := NdArray [1; 1; 1] [1%Qc] in
  let h := [ObjNdarray data; ObjEpochs e] in
  let no_trial := NdArray [0; 1; 1] [] in
  let no_channel := NdArray [1; 0; 1] [] in
  let e0 := MkEpochs (float_lit 1) [] 0 in
  let no_time := NdArray [1; 1; 0] [] in
  (epochs_at h 1 e data 1 1
   ∧ float_gt_int (nsamples_of (float_lit 0) (info_sfreq e))
       (Z.of_nat (length (times e))) = false
   ∧ (moving_average "1.21.0" 1 (float_lit 0) h).1 = Raise PrimitiveError
   ∧ float_gt_int (nsamples_of S754_nan (info_sfreq e))
       (Z.of_nat (length (times e))) = false
   ∧ (moving_average "1.21.0" 1 S754_nan h).1 = Raise PrimitiveError)
  ∧ (epochs_at [ObjNdarray no_trial; ObjEpochs e] 1 e no_trial 0 1
     ∧ float_gt_int (nsamples_of float_one (info_sfreq e)) 0 = true
     ∧ float_gt_int (nsamples_of float_one (info_sfreq e))
         (Z.of_nat (length (times e))) = false
     ∧ (moving_average "1.21.0" 1 float_one [ObjNdarray no_trial; ObjEpochs e]).1
       = Raise PrimitiveError)
  ∧ (epochs_at [ObjNdarray no_channel; ObjEpochs e] 1 e no_channel 1 0
     ∧ (moving_average "1.21.0" 1 float_one [ObjNdarray no_channel; ObjEpochs e]).1
       = Raise PrimitiveError)
  ∧ (epochs_at [ObjNdarray no_time; ObjEpochs e0] 1 e0 no_time 1 1
     ∧ float_gt_int (nsamples_of float_one (info_sfreq e0))
         (Z.of_nat (length (times e0))) = true
     ∧ (moving_average "1.21.0" 1 float_one [ObjNdarray no_time; ObjEpochs e0]).1
       = Raise PrimitiveError).
Proof. cbv zeta. unfold epochs_at. repeat split; by vm_compute. Qed.

(** C3, amended.  On an epoch container with at least one trial, one channel
    and one time sample, for a [twindow] whose
    [nsamples = ceil(twindow * sfreq)], the product rounded to binary64, is
    positive: [moving_average] raises [InvalidWindowError] if and only if
    [nsamples] exceeds the number of time samples, and returns a container
    otherwise, also when [nsamples] equals the number of time samples. *)
Theorem moving_average_window_check (np_version : string) (epoch : loc)
    (twindow : float) (h : heap) (e : Epochs) (data : ndarray)
    (n_epochs n_channels : nat) :
  epochs_at h epoch e data n_epochs n_channels →
  0 < n_epochs → 0 < n_channels → 0 < length (times e) →
  let nsamples := nsamples_of twindow (info_sfreq e) in
  float_gt_int nsamples 0 = true →
  let r := (moving_average np_version epoch twindow h).1 in
  ((∃ span, r = Raise (InvalidWindowError twindow span))
     ↔ float_gt_int nsamples (Z.of_nat (length (times e))) = true)
  ∧ (float_gt_int nsamples (Z.of_nat (length (times e))) = false
     → ∃ epoch', r = Ok epoch').
Proof.
  intros Hat Hne Hnc Hnt. cbv zeta. intros Hpos.
  destruct (float_gt_int (nsamples_of twindow (info_sfreq e))
              (Z.of_nat (length (times e)))) eqn:Hbig.
  - destruct Hat as (He & Hd & _).
    rewrite (moving_average_run _ _ _ _ e data He Hd). cbv zeta.
    rewrite Hbig.
    split; [|done]. split; [done|]. intros _. cbn [fst].
    destruct (getitem_last_Ok (times e)) as [t_last ->];
      [intros E; rewrite E in Hnt; simpl in Hnt; lia|].
    destruct (times e) as [|t_first ts]; [simpl in Hnt; lia|]. by eexists.
  - destruct (nsamples_fits _ _ _ Hpos Hbig) as (n & Hint & Hn).
    destruct (moving_average_Ok np_version epoch twindow h e data n_epochs n_channels n)
      as [_ ->]; [done..|]. simpl.
    split; [|intros _; by eexists].
    split; [by intros [span [=]]|done].
Qed.

Lemma moving_average_window_check_witness :
  let e := MkEpochs (float_lit 1) [float_lit 0; float_lit 1] 0 in
  let data := NdArray [1; 1; 2] [1%Qc; 1%Qc] in
  let h := [ObjNdarray data; ObjEpochs e] in
  let nsamples := nsamples_of float_two (info_sfreq e) in
  let r := (moving_average "1.21.0" 1 float_two h).1 in
  ((∃ span, r = Raise (InvalidWindowError float_two span))
     ↔ float_gt_int nsamples (Z.of_nat (length (times e))) = true)
  ∧ (float_gt_int nsamples (Z.of_nat (length (times e))) = false
     → ∃ epoch', r = Ok epoch').
Proof.
  intros e data h.
  apply (moving_average_window_check "1.21.0" 1 float_two h e data 1 1).
  - unfold epochs_at. repeat split; reflexivity.
  - lia.
  - lia.
  - simpl. lia.
  - by vm_compute.
Defined.

(** C9 does not hold for every epoch container.  On a container without
    trials, or without channels, the window of one sample is accepted and
    numpy raises; on a container without time samples the window of one
    sample is too long and building the message raises an [IndexError]; at a
    sampling frequency of [8014687441826738 * 2^970] Hz the product of
    [1.0 / sfreq], a subnormal number, with [sfreq] is rounded to a float
    above [1.0], so the window has two samples and the data returned is not
    the data passed; and at the subnormal sampling frequency [2^-1074] Hz the
    quotient [1.0 / sfreq] is infinite and the window error is raised. *)
Lemma moving_average_one_sample_no_trials :
  let e := MkEpochs float_two [float_lit 0] 0 in
  let no_trial := NdArray [0; 1; 1] [] in
  let no_channel := NdArray [1; 0; 1] [] in
  let e0 := MkEpochs float_two [] 0 in
  let no_time := NdArray [1; 1; 0] [] in
  let fast := S754_finite false 8014687441826738 970 in
  let e2 := MkEpochs fast [float_lit 0; float_lit 0] 0 in
  let data := NdArray [1; 1; 2] [1%Qc; Qc_of_Z 3] in
  let slow := S754_finite false 1 (-1074) in
  let e3 := MkEpochs slow [float_lit 0; float_lit 0] 0 in
  (epochs_at [ObjNdarray no_trial; ObjEpochs e] 1 e no_trial 0 1
   ∧ (moving_average "1.21.0" 1 (float_div float_one (info_sfreq e))
        [ObjNdarray no_trial; ObjEpochs e]).1 = Raise PrimitiveError
   ∧ (moving_average "1.11.3" 1 (float_div float_one (info_sfreq e))
        [ObjNdarray no_trial; ObjEpochs e]).1 = Raise PrimitiveError)
  ∧ (epochs_at [ObjNdarray no_channel; ObjEpochs e] 1 e no_channel 1 0
     ∧ (moving_average "1.21.0" 1 (float_div float_one (info_sfreq e))
          [ObjNdarray no_channel; ObjEpochs e]).1 = Raise PrimitiveError)
  ∧ (epochs_at [ObjNdarray no_time; ObjEpochs e0] 1 e0 no_time 1 1
     ∧ (moving_average "1.21.0" 1 (float_div float_one (info_sfreq e0))
          [ObjNdarray no_time; ObjEpochs e0]).1 = Raise PrimitiveError)
  ∧ (epochs_at [ObjNdarray data; ObjEpochs e3] 1 e3 data 1 1
     ∧ float_div float_one slow = S754_infinity false
     ∧ (moving_average "1.21.0" 1 (float_div float_one slow)
          [ObjNdarray data; ObjEpochs e3]).1
       = Raise (InvalidWindowError (S754_infinity false) (S754_zero false)))
  ∧ (epochs_at [ObjNdarray data; ObjEpochs e2] 1 e2 data 1 1
     ∧ digits2_pos 8014687441826738 = 53%positive
     ∧ nsamples_of (float_div float_one fast) fast = float_two
     ∧ (r ← boxcar (nsamples_of (float_div float_one fast) fast); Ok (map this r))
       = Ok [1 # 2; 1 # 2]%Q
     ∧ match moving_average "1.21.0" 1 (float_div float_one fast)
               [ObjNdarray data; ObjEpochs e2] with
       | (Ok epoch', h') =>
           match h' !! 4 with
           | Some (ObjNdarray out) => map this (buf out) = [1 # 2; 2]%Q
           | _ => False
           end
       | _ => False
       end).
Proof. cbv zeta. unfold epochs_at. repeat split; by vm_compute. Qed.

(** C9, amended.  On an epoch container with at least one trial, one channel
    and one time sample, whose sampling frequency is a normal float below
    [2^1022] in absolute value: for [twindow] equal to [1.0 / sfreq], the
    quotient rounded to binary64, [nsamples] is [1.0], the filter is [[1]],
    and the data of the container that is returned equals the data of the
    input. *)
Theorem moving_average_one_sample (np_version : string) (epoch : loc)
    (h : heap) (e : Epochs) (data : ndarray) (n_epochs n_channels : nat)
    (s : bool) (m : positive) (ex : Z) :
  epochs_at h epoch e data n_epochs n_channels →
  0 < n_epochs → 0 < n_channels → 0 < length (times e) →
  info_sfreq e = S754_finite s m ex →
  digits2_pos m = 53%positive → (-1074 ≤ ex ≤ 969)%Z →
  let twindow := float_div float_one (info_sfreq e) in
  nsamples_of twindow (info_sfreq e) = float_one
  ∧ boxcar (nsamples_of twindow (info_sfreq e)) = Ok [1%Qc]
  ∧ ∃ epoch' h' e',
      moving_average np_version epoch twindow h = (Ok epoch', h')
      ∧ h' !! epoch' = Some (ObjEpochs e')
      ∧ h' !! _data e' = Some (ObjNdarray data).
Proof.
  intros Hat Hne Hnc Hnt Hsf Hd Hex. cbv zeta.
  assert (nsamples_of (float_div float_one (info_sfreq e)) (info_sfreq e) = float_one)
    as Hone by (rewrite Hsf; by apply nsamples_one_sample).
  split; [done|]. rewrite Hone. split; [apply boxcar_one|].
  destruct (moving_average_Ok np_version epoch (float_div float_one (info_sfreq e))
              h e data n_epochs n_channels 1) as [_ ->];
    [done..|rewrite Hone; apply float_one_is_int|lia|].
  assert (repeat (1 / Qc_of_Z 1)%Qc (Z.to_nat 1) = [1%Qc]) as ->.
  { pose proof (boxcar_Ok float_one 1 float_one_is_int ltac:(lia)) as H1.
    rewrite boxcar_one in H1. congruence. }
  destruct Hat as (_ & _ & Hwf & Hshp).
  assert (NdArray (shape data) (concat (map (conv_lane [1%Qc]) (lanes data))) = data)
    as ->.
  { destruct data as [shp l]. unfold wf_ndarray in Hwf. simpl in *. subst shp.
    f_equal. unfold lanes. simpl in *. rewrite !Nat.mul_1_r.
    rewrite (map_ext_in _ id), map_id.
    - apply concat_chunks. lia.
    - intros x Hx%list_elem_of_In. unfold id. apply conv_lane_one.
      pose proof (Forall_length_chunks (length (times e)) (n_epochs * n_channels) l
                    ltac:(lia)) as Hall.
      eapply Forall_forall in Hall; [|exact Hx]. intros ->. simpl in Hall. lia. }
  eexists (S (length h)), _, (MkEpochs _ _ _). split; [reflexivity|]. split.
  - by apply (lookup_app_new h _ 1).
  - by apply (lookup_app_new h _ 2).
Qed.

Lemma moving_average_one_sample_witness :
  let e := MkEpochs (float_lit 10) [float_lit 0; float_div float_one (float_lit 10)] 0 in
  let data := NdArray [1; 1; 2] [2%Qc; Qc_of_Z 4] in
  let h := [ObjNdarray data; ObjEpochs e] in
  let twindow := float_div float_one (info_sfreq e) in
  nsamples_of twindow (info_sfreq e) = float_one
  ∧ boxcar (nsamples_of twindow (info_sfreq e)) = Ok [1%Qc]
  ∧ ∃ epoch' h' e',
      moving_average "1.11.3" 1 twindow h = (Ok epoch', h')
      ∧ h' !! epoch' = Some (ObjEpochs e')
      ∧ h' !! _data e' = Some (ObjNdarray data).
Proof.
  intros e data h.
  apply (moving_average_one_sample "1.11.3" 1 h e data 1 1 false 5629499534213120 (-49)).
  - unfold epochs_at. repeat split; reflexivity.
  - lia.
  - lia.
  - simpl. lia.
  - reflexivity.
  - reflexivity.
  - lia.
Defined.

(** C10.  When [nsamples = ceil(twindow * sfreq)] is zero, on an epoch
    container: the window check passes; the filter [np.ones(0) / nsamples] is
    empty; the copied data is transposed and handed with the empty filter to
    [convolve], whose outcome is the outcome of the call; [np.convolve]
    rejects the empty filter on every lane and [convolve] raises under both
    strategies; so the call raises numpy's error and not
    [InvalidWindowError], after the deep copy was made and nothing else. *)
Theorem moving_average_zero_window (np_version : string) (epoch : loc)
    (twindow : float) (h : heap) (e : Epochs) (data : ndarray)
    (n_epochs n_channels : nat) (s : bool) :
  epochs_at h epoch e data n_epochs n_channels →
  nsamples_of twindow (info_sfreq e) = S754_zero s →
  float_gt_int (nsamples_of twindow (info_sfreq e)) (Z.of_nat (length (times e)))
  = false
  ∧ boxcar (nsamples_of twindow (info_sfreq e)) = Ok []
  ∧ ∃ t,
      np_transpose_1_0_2 data = Ok t
      ∧ (moving_average np_version epoch twindow h).1
        = (c ← convolve np_version t [];
           _ ← np_transpose_1_0_2 c;
           Ok (S (length h)))
      ∧ (∀ x, x ∈ lanes t → np_convolve x [] = Raise PrimitiveError)
      ∧ convolve np_version t [] = Raise PrimitiveError
      ∧ moving_average np_version epoch twindow h
        = (Raise PrimitiveError,
           h ++ [ObjNdarray data;
                 ObjEpochs (MkEpochs (info_sfreq e) (times e) (length h))]).
Proof.
  intros (He & Hd & Hwf & Hshp) Hzero. rewrite Hzero.
  split; [apply Z.ltb_ge; lia|]. split; [done|].
  destruct data as [shp l]. simpl in Hshp. subst shp.
  set (data := NdArray _ l) in *.
  destruct (np_transpose_1_0_2 data) as [t|] eqn:Ht; [|done].
  exists t.
  assert (convolve np_version t [] = Raise PrimitiveError) as Hconv.
  { unfold np_transpose_1_0_2 in Ht. simpl in Ht. injection Ht as <-.
    apply convolve_empty_filter. }
  assert (moving_average np_version epoch twindow h
          = (Raise PrimitiveError,
             h ++ [ObjNdarray data;
                   ObjEpochs (MkEpochs (info_sfreq e) (times e) (length h))]))
    as Hrun.
  { rewrite (moving_average_run _ _ _ _ e data He Hd). cbv zeta.
    rewrite Hzero. cbn [float_gt_int].
    rewrite (proj2 (Z.ltb_ge _ _)) by lia.
    unfold smooth. rewrite boxcar_zero. cbn [mbind result_bind rbind].
    rewrite Ht. cbn [mbind result_bind rbind]. by rewrite Hconv. }
  split; [done|]. split; [by rewrite Hrun, Hconv|].
  split; [intros x _; apply np_convolve_Raise; by right|]. done.
Qed.

Lemma moving_average_zero_window_witness :
  let e := MkEpochs (float_lit 10) [float_lit 0; float_lit 1] 0 in
  let data := NdArray [1; 1; 2] [1%Qc; 1%Qc] in
  let h := [ObjNdarray data; ObjEpochs e] in
  float_gt_int (nsamples_of (float_lit 0) (info_sfreq e)) (Z.of_nat (length (times e)))
  = false
  ∧ boxcar (nsamples_of (float_lit 0) (info_sfreq e)) = Ok []
  ∧ ∃ t,
      np_transpose_1_0_2 data = Ok t
      ∧ (moving_average "1.21.0" 1 (float_lit 0) h).1
        = (c ← convolve "1.21.0" t [];
           _ ← np_transpose_1_0_2 c;
           Ok (S (length h)))
      ∧ (∀ x, x ∈ lanes t → np_convolve x [] = Raise PrimitiveError)
      ∧ convolve "1.21.0" t [] = Raise PrimitiveError
      ∧ moving_average "1.21.0" 1 (float_lit 0) h
        = (Raise PrimitiveError,
           h ++ [ObjNdarray data;
                 ObjEpochs (MkEpochs (info_sfreq e) (times e) (length h))]).
Proof.
  intros e data h.
  apply (moving_average_zero_window "1.21.0" 1 (float_lit 0) h e data 1 1 false).
  - unfold epochs_at. repeat split; reflexivity.
  - reflexivity.
Defined.

(** C4.  Whatever the heap, the object passed and the window, and whether the
    call returns or raises, every object of the heap before the call is the
    same after the call: in particular the container passed and its data. *)
Theorem moving_average_frame (np_version : string) (epoch : loc) (twindow : float)
    (h : heap) (l : loc) (o : pyobj) :
  h !! l = Some o →
  (moving_average np_version epoch twindow h).2 !! l = Some o.
Proof.
  intros Hl. destruct (moving_average_heap np_version epoch twindow h) as [k ->].
  by apply lookup_app_l_Some.
Qed.

Lemma moving_average_frame_witness :
  let e := MkEpochs (float_lit 1) [float_lit 0; float_lit 1] 0 in
  let data := NdArray [1; 1; 2] [1%Qc; 0%Qc] in
  let h := [ObjNdarray data; ObjEpochs e] in
  (moving_average "1.21.0" 1 float_two h).2 !! 1 = Some (ObjEpochs e)
  ∧ (moving_average "1.21.0" 1 float_two h).2 !! 0 = Some (ObjNdarray data)
  ∧ (moving_average "1.21.0" 1 (float_lit 3) h).2 !! 0 = Some (ObjNdarray data).
Proof.
  intros e data h. split; [|split].
  - apply (moving_average_frame "1.21.0" 1 float_two h 1 (ObjEpochs e)). reflexivity.
  - apply (moving_average_frame "1.21.0" 1 float_two h 0 (ObjNdarray data)). reflexivity.
  - apply (moving_average_frame "1.21.0" 1 (float_lit 3) h 0 (ObjNdarray data)). reflexivity.
Defined.

(** ** Claims on [_npairs] *)

Example npairs_examples :
  _npairs 2 = Ok 3%Z ∧ _npairs 3 = Ok 6%Z
  ∧ _npairs 1 = Raise (InsufficientItemsError 1).
Proof. by vm_compute. Qed.

Lemma float_of_int_Raise (z : Z) (e : exn) :
  float_of_int z = Raise e → e = PrimitiveError.
Proof.
  unfold float_of_int. destruct (binary_normalize 53 1024 z 0 false); congruence.
Qed.

Lemma int_of_float_Raise (x : float) (e : exn) :
  int_of_float x = Raise e → e = PrimitiveError.
Proof. unfold int_of_float. destruct x; congruence. Qed.

(** X6. [InsufficientItemsError] is raised exactly below two items, and names
    the count passed. *)
Lemma npairs_insufficient (n_items m : Z) :
  _npairs n_items = Raise (InsufficientItemsError m) ↔ (n_items < 2)%Z ∧ m = n_items.
Proof.
  unfold _npairs. destruct (n_items <? 2)%Z eqn:E.
  - apply Z.ltb_lt in E. split; [by intros [= <-]|by intros [_ ->]].
  - apply Z.ltb_ge in E. split; [|lia]. intros Hr. exfalso.
    destruct (float_of_int (n_items * (n_items - 1))) as [x|e1] eqn:E1.
    2:{ apply float_of_int_Raise in E1. subst e1. done. }
    cbn [mbind result_bind rbind] in Hr.
    destruct (float_of_int n_items) as [y|e2] eqn:E2.
    2:{ apply float_of_int_Raise in E2. subst e2. done. }
    cbn [mbind result_bind rbind] in Hr.
    by apply int_of_float_Raise in Hr.
Qed.

(** *** binary64 arithmetic on integers below [2^53] *)

Section NpairsExact.
Local Open Scope Z_scope.

Lemma float_two_eq : float_two = S754_finite false 4503599627370496 (-51).
Proof. by vm_compute. Qed.

(** Halving an even integer below [2^53] is exact. *)
Lemma float_div_two_exact (m : positive) (e v : Z) :
  exact53 m e (2 * v) →
  float_div (S754_finite false m e) float_two = S754_finite false m (e - 1)
  ∧ exact53 m (e - 1) v.
Proof.
  intros Hex. pose proof (exact53_bounds _ _ _ Hex) as [He Hv].
  destruct Hex as (Hd & _ & _ & Hm).
  split.
  - rewrite float_two_eq. unfold float_div, SFdiv, SFdiv_core_binary.
    unfold Zdigits2. rewrite Hd.
    change (digits2_pos 4503599627370496) with 53%positive.
    assert (Z.min (fexp 53 1024 (53 + e - (53 + -51))) (e - -51) = e - 2) as ->.
    { unfold fexp, emin. lia. }
    replace (e - -51 - (e - 2)) with 53 by lia.
    assert (Z.div_eucl (Z.shiftl (Z.pos m) 53) 4503599627370496 = (Z.pos m~0, 0))
      as ->.
    { rewrite Z.shiftl_mul_pow2 by lia.
      pose proof (Z_div_mod (Z.pos m * 2 ^ 53) 4503599627370496 ltac:(lia)) as Hdm.
      destruct (Z.div_eucl _ _) as [q r]. destruct Hdm as [H1 H2].
      change (2 ^ 53) with (2 * 4503599627370496) in H1.
      assert (q = Z.pos m~0) by nia. f_equal; lia. }
    cbn [xorb]. change (new_location 4503599627370496 0) with loc_Exact.
    apply binary_round_aux_exact; [|done|lia].
    unfold shr_fexp, Zdigits2. cbn [digits2_pos]. rewrite Hd.
    assert (fexp 53 1024 (Z.pos (Pos.succ 53) + (e - 2)) - (e - 2) = 1) as ->.
    { unfold fexp, emin. lia. }
    unfold shr. cbn [SpecFloat.iter_pos shr_record_of_loc]. rewrite shr_1_even.
    f_equal. lia.
  - split; [done|]. split; [lia|]. split; [lia|].
    rewrite Hm. replace (- (e - 1)) with (1 + - e) by lia.
    rewrite Z.pow_add_r by lia. change (2 ^ 1) with 2. lia.
Qed.

(** Adding two positive integers whose sum is below [2^53] is exact. *)
Lemma float_add_exact (m1 m2 : positive) (e1 e2 v1 v2 : Z) :
  exact53 m1 e1 v1 → exact53 m2 e2 v2 → v1 + v2 < 2 ^ 53 →
  ∃ m e, float_add (S754_finite false m1 e1) (S754_finite false m2 e2)
         = S754_finite false m e
         ∧ exact53 m e (v1 + v2).
Proof.
  intros H1 H2 Hsum.
  pose proof (exact53_bounds _ _ _ H1) as [He1 Hv1].
  pose proof (exact53_bounds _ _ _ H2) as [He2 Hv2].
  destruct H1 as (_ & _ & _ & Hm1). destruct H2 as (_ & _ & _ & Hm2).
  unfold float_add, SFadd. cbn [cond_Zopp].
  assert (Z.min e1 e2 ≤ e1 ∧ Z.min e1 e2 ≤ e2 ∧ -52 ≤ Z.min e1 e2 ≤ 0)
    as (Hz1 & Hz2 & Hz3) by lia.
  generalize dependent (Z.min e1 e2). intros ez Hz1 Hz2 Hz3.
  rewrite (shl_align_fst m1 e1 ez Hz1), (shl_align_fst m2 e2 ez Hz2).
  assert (Z.pos m1 * 2 ^ (e1 - ez) + Z.pos m2 * 2 ^ (e2 - ez)
          = (v1 + v2) * 2 ^ (- ez)) as HM.
  { rewrite Hm1, Hm2, <- !Z.mul_assoc, <- !Z.pow_add_r by lia.
    replace (- e1 + (e1 - ez)) with (- ez) by lia.
    replace (- e2 + (e2 - ez)) with (- ez) by lia. lia. }
  rewrite HM.
  assert (0 < (v1 + v2) * 2 ^ (- ez)) as Hpos.
  { apply Z.mul_pos_pos; [lia|]. apply Z.pow_pos_nonneg; lia. }
  destruct ((v1 + v2) * 2 ^ (- ez)) as [|M|M] eqn:EM; try lia.
  apply (binary_normalize_exact M ez (v1 + v2)); [by rewrite EM|lia|lia].
Qed.

(** As long as [n_items * (n_items - 1)] is below [2^53] no operation rounds,
    and [_npairs] returns the number of pairs. *)
Lemma npairs_exact (n_items : Z) :
  2 ≤ n_items → n_items * (n_items - 1) < 2 ^ 53 →
  _npairs n_items = Ok (n_items * (n_items + 1) / 2).
Proof.
  intros Hn Hsmall. unfold _npairs.
  rewrite (proj2 (Z.ltb_ge _ _)) by lia.
  assert (∃ k, n_items * (n_items - 1) = 2 * k) as [k Hk].
  { destruct (Z.Even_or_Odd n_items) as [[j ->]|[j ->]].
    - exists (j * (2 * j - 1)). lia.
    - exists ((2 * j + 1) * j). lia. }
  assert (n_items * (n_items + 1) / 2 = k + n_items) as ->.
  { replace (n_items * (n_items + 1)) with ((k + n_items) * 2) by lia.
    apply Z.div_mul. lia. }
  destruct (float_of_int_exact (n_items * (n_items - 1))) as (m1 & e1 & -> & Hx);
    [nia|].
  cbn [mbind result_bind rbind]. rewrite Hk in Hx.
  destruct (float_div_two_exact m1 e1 k Hx) as [-> Hhalf].
  destruct (float_of_int_exact n_items) as (m2 & e2 & -> & Hy); [nia|].
  cbn [mbind result_bind rbind].
  destruct (float_add_exact m1 m2 (e1 - 1) e2 k n_items Hhalf Hy) as (m & e & -> & Hs).
  { change (2 ^ 53) with 9007199254740992 in *. nia. }
  by apply int_of_float_exact.
Qed.

End NpairsExact.

(** C5, at 134217729 items (2^27 + 1): the sum [2^53 + 2^26 + 2^27 + 1] of the
    two floats is odd and above [2^53], it is rounded to the even float below,
    and [_npairs] returns one less than [n * (n + 1) / 2]. *)
Theorem npairs_rounds :
  _npairs 134217729 = Ok 9007199456067584%Z
  ∧ (134217729 * (134217729 + 1) / 2 = 9007199456067585)%Z.
Proof. by vm_compute. Qed.

(** C7, at [2^512 + 1] items: [n * (n - 1)] is above the largest float, its
    conversion raises [OverflowError], and [_npairs] raises although there are
    more than two items. *)
Theorem npairs_overflows :
  (2 ≤ 2 ^ 512 + 1)%Z ∧ _npairs (2 ^ 512 + 1) = Raise PrimitiveError.
Proof. by vm_compute. Qed.

(** ** Claims on [_get_unique_targets] *)

Section UniqueTargetsProperties.
Context {label : Type} `{Countable label}.
Context (label_le : relation label) `{!RelDecision label_le}.
Context `{!PartialOrder label_le, !Total label_le}.

Lemma StronglySorted_strict (l : list label) :
  StronglySorted label_le l → NoDup l → StronglySorted (strict label_le) l.
Proof.
  induction 1 as [|x l Hl IH Hx]; intros Hnd; [constructor|].
  apply NoDup_cons in Hnd as [Hnotin Hnd]. constructor; [by apply IH|].
  apply Forall_forall. intros y Hy. split.
  - by eapply Forall_forall in Hx.
  - intros Hyx. eapply Forall_forall in Hx; [|exact Hy].
    assert (x = y) as -> by (by apply (anti_symm label_le)). done.
Qed.

Lemma np_unique_elem_of (ar : list label) (x : label) :
  x ∈ np_unique label_le ar ↔ x ∈ ar.
Proof.
  unfold np_unique. rewrite merge_sort_Permutation. apply elem_of_remove_dups.
Qed.

Lemma np_unique_sorted (ar : list label) :
  StronglySorted (strict label_le) (np_unique label_le ar).
Proof.
  apply StronglySorted_strict.
  - apply StronglySorted_merge_sort; apply _.
  - unfold np_unique. rewrite merge_sort_Permutation. apply NoDup_remove_dups.
Qed.

(** C6.  The result is in strictly ascending order, hence without
    duplicates; its elements are exactly the labels that are in the unique
    values of both inputs, which are the labels that occur in both inputs;
    and when there is no such label the result is the empty list. *)
Theorem get_unique_targets_spec (targets_train targets_test : list label) :
  let unique_targets := _get_unique_targets label_le targets_train targets_test in
  StronglySorted (strict label_le) unique_targets
  ∧ NoDup unique_targets
  ∧ (∀ x, x ∈ unique_targets
          ↔ x ∈ np_unique label_le targets_train ∧ x ∈ np_unique label_le targets_test)
  ∧ (∀ x, x ∈ unique_targets ↔ x ∈ targets_train ∧ x ∈ targets_test)
  ∧ ((∀ x, ¬ (x ∈ targets_train ∧ x ∈ targets_test)) → unique_targets = []).
Proof.
  cbv zeta. unfold _get_unique_targets, sorted.
  set (s := list_to_set _ ∩ list_to_set _).
  assert (NoDup (merge_sort label_le (elements s))) as Hnd.
  { rewrite merge_sort_Permutation. apply NoDup_elements. }
  assert (∀ x, x ∈ merge_sort label_le (elements s)
               ↔ x ∈ np_unique label_le targets_train
                 ∧ x ∈ np_unique label_le targets_test) as Hin.
  { intros x. rewrite merge_sort_Permutation, elem_of_elements. unfold s.
    by rewrite elem_of_intersection, !elem_of_list_to_set. }
  assert (∀ x, x ∈ merge_sort label_le (elements s)
               ↔ x ∈ targets_train ∧ x ∈ targets_test) as Hin'.
  { intros x. by rewrite Hin, !np_unique_elem_of. }
  repeat split; try done.
  - apply StronglySorted_strict; [|done].
    apply StronglySorted_merge_sort; apply _.
  - by apply Hin.
  - by apply Hin.
  - apply Hin. 
  - by apply Hin'.
  - by apply Hin'.
  - apply Hin'.
  - intros Hempty. destruct (merge_sort label_le (elements s)) as [|x l] eqn:E; [done|].
    destruct (Hempty x). apply Hin'. by left.
Qed.
End UniqueTargetsProperties.

Example get_unique_targets_examples :
  _get_unique_targets Z.le [1; 2; 2; 3]%Z [2; 3; 3; 4]%Z = [2; 3]%Z
  ∧ _get_unique_targets Z.le [1]%Z [2]%Z = [].
Proof. by vm_compute. Qed.

Lemma get_unique_targets_spec_witness :
  let unique_targets := _get_unique_targets Z.le [3; 1; 2; 2]%Z [2; 3; 3; 4]%Z in
  StronglySorted (strict Z.le) unique_targets
  ∧ NoDup unique_targets
  ∧ (∀ x, x ∈ unique_targets
          ↔ x ∈ np_unique Z.le [3; 1; 2; 2]%Z ∧ x ∈ np_unique Z.le [2; 3; 3; 4]%Z)
  ∧ (∀ x, x ∈ unique_targets ↔ x ∈ [3; 1; 2; 2]%Z ∧ x ∈ [2; 3; 3; 4]%Z)
  ∧ ((∀ x, ¬ (x ∈ [3; 1; 2; 2]%Z ∧ x ∈ [2; 3; 3; 4]%Z)) → unique_targets = []).
Proof.
  exact (get_unique_targets_spec Z.le [3; 1; 2; 2]%Z [2; 3; 3; 4]%Z).
Defined.

(** * Further properties *)

(** ** More on [_conv] *)

Lemma _conv_Ok_inv (x filt r : list Qc) :
  _conv x filt = Ok r → x ≠ [] ∧ filt ≠ [].
Proof.
  intros Hr. split; intros ->; rewrite _conv_Raise in Hr; auto; done.
Qed.

(** X1. [_conv] raises exactly when the signal or the filter is empty (the
    [ValueError] of [np.convolve]); otherwise it returns as many samples as
    the signal has, however long the filter is. *)
Theorem conv_raises_iff_empty (array filt : list Qc) :
  ((∃ e, _conv array filt = Raise e) ↔ array = [] ∨ filt = [])
  ∧ (array ≠ [] ∧ filt ≠ [] ↔ ∃ r, _conv array filt = Ok r ∧ length r = length array).
Proof.
  split; split.
  - intros [e He]. destruct array as [|x0 x]; [by left|].
    destruct filt as [|f0 filt]; [by right|].
    destruct (_conv_Ok (x0 :: x) (f0 :: filt)) as [Hr _]; [done..|]. congruence.
  - intros Hemp. exists PrimitiveError. by apply _conv_Raise.
  - intros [Hx Hf]. destruct (_conv_Ok array filt Hx Hf) as [Hr Hlen]. eauto.
  - intros (r & Hr & _). by apply _conv_Ok_inv in Hr.
Qed.


(** ** More on [convolve] *)

Lemma concat_lanes (array : ndarray) :
  wf_ndarray array → 1 ≤ ndim array → concat (lanes array) = buf array.
Proof.
  destruct array as [shp l]. unfold wf_ndarray, ndim, lanes. simpl. intros Hwf Hd.
  destruct (split_last shp) as [[lead n]|] eqn:E.
  - apply split_last_Some in E as ->. rewrite size_of_app in Hwf. simpl in Hwf.
    apply concat_chunks. lia.
  - apply split_last_None in E as ->. simpl in Hd. lia.
Qed.

Lemma convolve_lanes_cases (array : ndarray) (filt : list Qc) :
  convolve_lanes array filt
  = if (ndim array =? 0) || (size_of (shape array) =? 0) || (length filt =? 0)
    then Raise PrimitiveError
    else Ok (NdArray (shape array) (concat (map (conv_lane filt) (lanes array)))).
Proof.
  destruct array as [shp l]. unfold ndim, convolve_lanes. simpl.
  destruct (split_last shp) as [[lead n]|] eqn:E.
  - apply split_last_Some in E as ->. rewrite size_of_app, length_app. simpl.
    rewrite Nat.mul_1_r.
    replace (length lead + 1 =? 0) with false by (symmetry; apply Nat.eqb_neq; lia).
    destruct n as [|n]; simpl.
    + by rewrite Nat.mul_0_r.
    + destruct (size_of lead) as [|c]; simpl; done.
  - by apply split_last_None in E as ->.
Qed.

Lemma convolve_cases (np_version : string) (array : ndarray) (filt : list Qc) :
  wf_ndarray array →
  convolve np_version array filt
  = if negb (version_ge np_version "1.12.0") && (3 <? ndim array)
    then Raise UnsupportedShapeError
    else if (ndim array =? 0) || (size_of (shape array) =? 0) || (length filt =? 0)
    then Raise PrimitiveError
    else Ok (NdArray (shape array) (concat (map (conv_lane filt) (lanes array)))).
Proof.
  intros Hwf. rewrite <- convolve_lanes_cases. unfold convolve.
  destruct (version_ge np_version "1.12.0"); simpl.
  - by apply convolve_vectorized_lanes.
  - destruct (3 <? ndim array) eqn:E.
    + apply Nat.ltb_lt in E. by apply convolve_manual_UnsupportedShape.
    + apply Nat.ltb_ge in E. destruct (decide (ndim array = 0)) as [E0|E0].
      * destruct array as [[|? ?] l]; [|done]. done.
      * apply convolve_manual_lanes; [done|lia].
Qed.

Lemma convolve_trichotomy (np_version : string) (array : ndarray) (filt : list Qc) :
  wf_ndarray array →
  (version_ge np_version "1.12.0" = false ∧ 3 < ndim array
   ∧ convolve np_version array filt = Raise UnsupportedShapeError)
  ∨ ((version_ge np_version "1.12.0" = true ∨ ndim array ≤ 3)
     ∧ (ndim array = 0 ∨ size_of (shape array) = 0 ∨ filt = [])
     ∧ convolve np_version array filt = Raise PrimitiveError)
  ∨ ((version_ge np_version "1.12.0" = true ∨ ndim array ≤ 3)
     ∧ 1 ≤ ndim array ∧ 0 < size_of (shape array) ∧ filt ≠ []
     ∧ convolve np_version array filt
       = Ok (NdArray (shape array) (concat (map (conv_lane filt) (lanes array))))).
Proof.
  intros Hwf. rewrite (convolve_cases _ _ _ Hwf).
  assert (version_ge np_version "1.12.0" = false ∧ 3 < ndim array
          ∨ (version_ge np_version "1.12.0" = true ∨ ndim array ≤ 3)) as [[Hv H3]|Hv].
  { destruct (version_ge np_version "1.12.0"); [by right; left|].
    destruct (decide (3 < ndim array)); [by left|right; right; lia]. }
  { left. rewrite Hv. rewrite (proj2 (Nat.ltb_lt _ _) H3). done. }
  right.
  assert (negb (version_ge np_version "1.12.0") && (3 <? ndim array) = false) as ->.
  { destruct Hv as [->|Hv]; [done|]. rewrite (proj2 (Nat.ltb_ge _ _) Hv).
    apply andb_false_r. }
  destruct ((ndim array =? 0) || (size_of (shape array) =? 0)
            || (length filt =? 0)) eqn:Eb.
  - left. split; [done|]. split; [|done].
    apply orb_true_iff in Eb as [Eb|Eb]; [apply orb_true_iff in Eb as [Eb|Eb]|];
      apply Nat.eqb_eq in Eb; auto.
    right; right. by destruct filt.
  - right. apply orb_false_elim in Eb as [Eb Eb3].
    apply orb_false_elim in Eb as [Eb1 Eb2].
    apply Nat.eqb_neq in Eb1, Eb2, Eb3.
    split; [done|]. split; [lia|]. split; [lia|]. split; [by intros ->|done].
Qed.

(** X4. What [convolve] does on any array and filter: it raises the module's
    own [ValueError] exactly on the manual branch for more than three
    dimensions; otherwise it fails inside numpy exactly when the array is 0-d,
    has an axis of length zero, or the filter is empty; in every other case it
    returns an array of the shape of its input. *)
Theorem convolve_outcome (np_version : string) (array : ndarray) (filt : list Qc) :
  wf_ndarray array →
  (convolve np_version array filt = Raise UnsupportedShapeError
     ↔ version_ge np_version "1.12.0" = false ∧ 3 < ndim array)
  ∧ (convolve np_version array filt = Raise PrimitiveError
     ↔ (version_ge np_version "1.12.0" = true ∨ ndim array ≤ 3)
       ∧ (ndim array = 0 ∨ size_of (shape array) = 0 ∨ filt = []))
  ∧ ((∃ out, convolve np_version array filt = Ok out ∧ shape out = shape array)
     ↔ (version_ge np_version "1.12.0" = true ∨ ndim array ≤ 3)
       ∧ 1 ≤ ndim array ∧ 0 < size_of (shape array) ∧ filt ≠ [])
  ∧ (∀ e, convolve np_version array filt = Raise e
          → e = UnsupportedShapeError ∨ e = PrimitiveError).
Proof.
  intros Hwf.
  destruct (convolve_trichotomy np_version array filt Hwf)
    as [(Hv & H3 & ->)|[(Hv & Hp & ->)|(Hv & H1 & H2 & Hf & ->)]].
  - split; [done|]. split; [|split].
    + split; [done|]. intros [[?|?] _]; [congruence|lia].
    + split; [by intros (? & ? & _)|]. intros [[?|?] _]; [congruence|lia].
    + intros e [= <-]. by left.
  - split; [|split; [|split]].
    + split; [done|]. intros [? ?]. destruct Hv; [congruence|lia].
    + done.
    + split; [by intros (? & ? & _)|]. intros (_ & ? & ? & ?).
      destruct Hp as [?|[?|?]]; [lia|lia|done].
    + intros e [= <-]. by right.
  - split; [|split; [|split]].
    + split; [done|]. intros [? ?]. destruct Hv; [congruence|lia].
    + split; [done|]. intros [_ [?|[?|?]]]; [lia|lia|done].
    + split; [done|]. intros _. eexists. split; [reflexivity|done].
    + done.
Qed.

Lemma convolve_outcome_witness :
  let array := NdArray [1; 1; 1; 2] (qs [1; 2]%Q) in
  convolve "1.11.3" array (qs [1]%Q) = Raise UnsupportedShapeError
  ↔ version_ge "1.11.3" "1.12.0" = false ∧ 3 < ndim array.
Proof.
  intros array.
  apply (proj1 (convolve_outcome "1.11.3" array (qs [1]%Q) eq_refl)).
Defined.

(** X5. The filter of the single weight 1 leaves the array as it is, on both
    strategies: convolution with the unit impulse is the identity. *)
Theorem convolve_unit_filter (np_version : string) (array : ndarray) :
  wf_ndarray array →
  version_ge np_version "1.12.0" = true ∨ ndim array ≤ 3 →
  1 ≤ ndim array → 0 < size_of (shape array) →
  convolve np_version array [1%Qc] = Ok array.
Proof.
  intros Hwf Hv H1 H2.
  assert (Hcase : version_ge np_version "1.12.0" = true ∨ 1 ≤ ndim array ≤ 3)
    by (destruct Hv; [by left|right; lia]).
  rewrite (convolve_lanes_eq _ _ _ Hwf Hcase).
  pose proof (convolve_lanes_Ok array [1%Qc] Hwf H1 H2 ltac:(done)) as Hok.
  destruct (lanes_convolve_lanes _ _ _ Hwf Hok) as (_ & _ & _ & Hne & _).
  rewrite Hok. f_equal. destruct array as [shp l]. cbn [shape buf]. f_equal.
  rewrite <- (concat_lanes (NdArray shp l) Hwf H1) at 2. f_equal.
  rewrite <- (map_id (lanes (NdArray shp l))) at 2.
  apply map_ext_in. intros x Hx. apply conv_lane_one.
  rewrite Forall_forall in Hne. apply Hne. by apply list_elem_of_In.
Qed.

Lemma convolve_unit_filter_witness :
  convolve "1.9.0" (NdArray [2; 3] (qs [1; 2; 3; 4; 5; 6]%Q)) [1%Qc]
  = Ok (NdArray [2; 3] (qs [1; 2; 3; 4; 5; 6]%Q)).
Proof.
  apply (convolve_unit_filter "1.9.0" (NdArray [2; 3] (qs [1; 2; 3; 4; 5; 6]%Q)));
    [reflexivity|by left|unfold ndim; simpl; lia|unfold size_of; simpl; lia].
Defined.


(** ** More on [moving_average] *)

Lemma smooth_version (v1 v2 : string) (nsamples : float) (data : ndarray) :
  wf_ndarray data → smooth v1 nsamples data = smooth v2 nsamples data.
Proof.
  intros Hwf. unfold smooth. destruct (boxcar nsamples) as [filt|?]; [|done].
  cbn [mbind result_bind rbind].
  destruct data as [[|a [|b [|n [|? ?]]]] l]; try done.
  destruct (np_transpose_1_0_2_wf a b n l) as (l' & -> & Hl').
  { unfold wf_ndarray in Hwf. simpl in Hwf. lia. }
  cbn [mbind result_bind rbind].
  rewrite !(convolve_lanes_eq _ (NdArray [b; a; n] l')); try done.
  all: try (unfold wf_ndarray; simpl; lia).
  all: right; unfold ndim; simpl; lia.
Qed.

Lemma smooth_supported (np_version : string) (nsamples : float) (data : ndarray) :
  wf_ndarray data →
  smooth np_version nsamples data ≠ Raise UnsupportedShapeError.
Proof.
  intros Hwf. unfold smooth.
  destruct (boxcar nsamples) as [filt|err] eqn:Eb; cbn [mbind result_bind rbind].
  2:{ intros [= ->]. unfold boxcar, np_ones in Eb.
      destruct (int_of_float nsamples) as [k|err] eqn:Ek;
        cbn [mbind result_bind rbind] in Eb.
      - by destruct (k <? 0)%Z.
      - injection Eb as ->. by destruct nsamples. }
  destruct data as [[|a [|b [|n [|? ?]]]] l]; try done.
  destruct (np_transpose_1_0_2_wf a b n l) as (l' & -> & Hl').
  { unfold wf_ndarray in Hwf. simpl in Hwf. lia. }
  cbn [mbind result_bind rbind].
  rewrite (convolve_lanes_eq _ (NdArray [b; a; n] l'));
    [|unfold wf_ndarray; simpl; lia|right; unfold ndim; simpl; lia].
  unfold convolve_lanes. cbn [shape split_last].
  destruct (_ || _); [done|]. cbn [mbind result_bind rbind]. done.
Qed.

(** X9. The numpy version does not change what [moving_average] returns: on
    a container whose data array is well formed, the call returns under one
    version string exactly when it returns under the other, with the same
    container and the same heap; it raises the window error under one exactly
    when it does under the other; and the [ValueError] of the manual branch
    for more than three dimensions never comes out of it.  The exceptions
    numpy raises on degenerate data are not compared. *)
Theorem moving_average_version_independent (v1 v2 : string) (epoch : loc)
    (twindow : float) (h : heap) :
  (∀ e data, h !! epoch = Some (ObjEpochs e) →
             h !! _data e = Some (ObjNdarray data) → wf_ndarray data) →
  (∀ epoch' h', moving_average v1 epoch twindow h = (Ok epoch', h')
                ↔ moving_average v2 epoch twindow h = (Ok epoch', h'))
  ∧ (∀ tw span h',
       moving_average v1 epoch twindow h = (Raise (InvalidWindowError tw span), h')
       ↔ moving_average v2 epoch twindow h = (Raise (InvalidWindowError tw span), h'))
  ∧ (moving_average v1 epoch twindow h).1 ≠ Raise UnsupportedShapeError.
Proof.
  intros Hwf.
  destruct (h !! epoch) as [[a|e]|] eqn:He.
  1, 3: rewrite !moving_average_no_epochs; [done|congruence..].
  destruct (h !! _data e) as [[data|e']|] eqn:Hd.
  2, 3: rewrite !moving_average_no_epochs; [done|congruence..].
  rewrite !(moving_average_run _ _ _ _ e data) by done. cbv zeta.
  rewrite (smooth_version v1 v2) by eauto. split; [done|]. split; [done|].
  destruct (float_gt_int _ _).
  - cbn [fst]. unfold getitem_last, getitem_first.
    destruct (reverse (times e)); [done|]. by destruct (times e).
  - pose proof (smooth_supported v2 (nsamples_of twindow (info_sfreq e)) data
                  ltac:(eauto)) as Hs.
    destruct (smooth v2 _ data) as [out|err]; [done|]. cbn [fst]. congruence.
Qed.

Lemma moving_average_version_independent_witness :
  let e := MkEpochs (float_lit 1) [float_lit 0; float_lit 1] 0 in
  let h := [ObjNdarray (NdArray [1; 1; 2] [1%Qc; 0%Qc]); ObjEpochs e] in
  (∀ epoch' h', moving_average "1.11.3" 1 float_two h = (Ok epoch', h')
                ↔ moving_average "1.21.0" 1 float_two h = (Ok epoch', h'))
  ∧ (∀ tw span h',
       moving_average "1.11.3" 1 float_two h
       = (Raise (InvalidWindowError tw span), h')
       ↔ moving_average "1.21.0" 1 float_two h
         = (Raise (InvalidWindowError tw span), h'))
  ∧ (moving_average "1.11.3" 1 float_two h).1 ≠ Raise UnsupportedShapeError.
Proof.
  intros e h. apply (moving_average_version_independent "1.11.3" "1.21.0" 1 float_two h).
  intros e' data [= <-] [= <-]. reflexivity.
Defined.

(** X10. A negative window is not caught by the window check: the check
    passes, [np.ones] is called with a negative length and raises, so the
    caller sees numpy's error about negative dimensions and not the message
    about the window. *)
Theorem moving_average_negative_window (np_version : string) (epoch : loc)
    (twindow : float) (h : heap) (e : Epochs) (n : Z) :
  h !! epoch = Some (ObjEpochs e) →
  int_of_float (nsamples_of twindow (info_sfreq e)) = Ok n → (n < 0)%Z →
  float_gt_int (nsamples_of twindow (info_sfreq e)) (Z.of_nat (length (times e)))
  = false
  ∧ np_ones n = Raise PrimitiveError
  ∧ boxcar (nsamples_of twindow (info_sfreq e)) = Raise PrimitiveError
  ∧ (moving_average np_version epoch twindow h).1 = Raise PrimitiveError.
Proof.
  intros He Hint Hneg.
  assert (np_ones n = Raise PrimitiveError) as Hones.
  { unfold np_ones. by rewrite (proj2 (Z.ltb_lt _ _) Hneg). }
  assert (boxcar (nsamples_of twindow (info_sfreq e)) = Raise PrimitiveError) as Hb.
  { unfold boxcar. rewrite Hint. cbn [mbind result_bind rbind]. by rewrite Hones. }
  assert (float_gt_int (nsamples_of twindow (info_sfreq e))
            (Z.of_nat (length (times e))) = false) as Hguard.
  { destruct (nsamples_of twindow (info_sfreq e)) as [s|s| |s m ex]; try done.
    injection Hint as <-. unfold float_gt_int.
    assert (∀ p, 0 < 2 ^ Z.pos p)%Z as Hpow
      by (intros p; apply Z.pow_pos_nonneg; lia).
    destruct s; cbn [cond_Zopp] in *.
    - destruct ex as [|p|p]; apply Z.ltb_ge; try lia.
      all: specialize (Hpow p); nia.
    - destruct ex as [|p|p]; try lia.
      specialize (Hpow p).
      pose proof (Z.div_pos (Z.pos m) (2 ^ Z.pos p) ltac:(lia) ltac:(lia)). lia. }
  split; [done|]. split; [done|]. split; [done|].
  destruct (h !! _data e) as [[data|e']|] eqn:Hd.
  2, 3: rewrite moving_average_no_epochs; [done|congruence].
  rewrite (moving_average_run _ _ _ _ e data He Hd). cbv zeta.
  rewrite Hguard. unfold smooth. by rewrite Hb.
Qed.

Lemma moving_average_negative_window_witness :
  let e := MkEpochs (float_lit 1) [float_lit 0; float_lit 1] 0 in
  let h := [ObjNdarray (NdArray [1; 1; 2] [1%Qc; 1%Qc]); ObjEpochs e] in
  float_gt_int (nsamples_of (float_lit (-1)) (info_sfreq e))
    (Z.of_nat (length (times e))) = false
  ∧ np_ones (-1) = Raise PrimitiveError
  ∧ boxcar (nsamples_of (float_lit (-1)) (info_sfreq e)) = Raise PrimitiveError
  ∧ (moving_average "1.21.0" 1 (float_lit (-1)) h).1 = Raise PrimitiveError.
Proof.
  intros e h.
  apply (moving_average_negative_window "1.21.0" 1 (float_lit (-1)) h e (-1));
    [reflexivity|reflexivity|lia].
Defined.

Lemma getitem_last_last {A} (l : list A) :
  getitem_last l = match last l with Some x => Ok x | None => Raise PrimitiveError end.
Proof.
  unfold getitem_last. rewrite <- head_reverse. by destruct (reverse l).
Qed.

(** X11. When the window is longer than the time axis, [moving_average]
    raises before it looks at the data: with a non-empty time axis the
    [ValueError] carries [twindow] and [times[-1] - times[0]], whatever the
    data array is (no trials, any shape); with an empty time axis building the
    message fails with an [IndexError].  By then the deep copy of the input
    has been made, and nothing else. *)
Theorem moving_average_window_error (np_version : string) (epoch : loc)
    (twindow : float) (h : heap) (e : Epochs) (data : ndarray) :
  h !! epoch = Some (ObjEpochs e) → h !! _data e = Some (ObjNdarray data) →
  float_gt_int (nsamples_of twindow (info_sfreq e)) (Z.of_nat (length (times e)))
  = true →
  moving_average np_version epoch twindow h
  = (match head (times e), last (times e) with
     | Some t_first, Some t_last =>
         Raise (InvalidWindowError twindow (float_sub t_last t_first))
     | _, _ => Raise PrimitiveError
     end,
     h ++ [ObjNdarray data;
           ObjEpochs (MkEpochs (info_sfreq e) (times e) (length h))]).
Proof.
  intros He Hd Hbig. rewrite (moving_average_run _ _ _ _ e data He Hd). cbv zeta.
  rewrite Hbig. f_equal.
  rewrite getitem_last_last. unfold getitem_first.
  destruct (times e) as [|t0 ts]; [done|].
  by destruct (last (t0 :: ts)).
Qed.

Lemma moving_average_window_error_witness :
  let e := MkEpochs (float_lit 1) [float_lit 0; float_lit 1] 0 in
  let data := NdArray [0; 1; 2] [] in
  let h := [ObjNdarray data; ObjEpochs e] in
  moving_average "1.21.0" 1 (float_lit 3) h
  = (Raise (InvalidWindowError (float_lit 3) (float_sub (float_lit 1) (float_lit 0))),
     h ++ [ObjNdarray data;
           ObjEpochs (MkEpochs (float_lit 1) [float_lit 0; float_lit 1] 2)]).
Proof.
  intros e data h.
  apply (moving_average_window_error "1.21.0" 1 (float_lit 3) h e data);
    [reflexivity|reflexivity|by vm_compute].
Defined.


(** X18. On an epoch container, [moving_average] returns if and only if the
    container has at least one trial and one channel and
    [nsamples = ceil(twindow * sfreq)], computed in binary64, is positive
    and does not exceed the number of time samples; in every other case it
    raises. *)
Theorem moving_average_returns_iff (np_version : string) (epoch : loc)
    (twindow : float) (h : heap) (e : Epochs) (data : ndarray)
    (n_epochs n_channels : nat) :
  epochs_at h epoch e data n_epochs n_channels →
  (∃ epoch' h', moving_average np_version epoch twindow h = (Ok epoch', h'))
  ↔ 0 < n_epochs ∧ 0 < n_channels
    ∧ float_gt_int (nsamples_of twindow (info_sfreq e)) 0 = true
    ∧ float_gt_int (nsamples_of twindow (info_sfreq e))
        (Z.of_nat (length (times e))) = false.
Proof.
  intros Hat. split.
  - intros (epoch' & h' & Hrun). destruct Hat as (He & Hd & Hwf & Hshp).
    rewrite (moving_average_run _ _ _ _ e data He Hd) in Hrun. cbv zeta in Hrun.
    destruct (float_gt_int _ (Z.of_nat _)) eqn:Hg.
    { destruct (getitem_last (times e)); [|done].
      by destruct (getitem_first (times e)). }
    destruct (smooth np_version _ data) as [out|] eqn:Hs; [|done]. clear Hrun.
    unfold smooth in Hs.
    destruct (boxcar _) as [filt|] eqn:Hb; [|done].
    cbn [mbind result_bind rbind] in Hs.
    destruct data as [shp l]. simpl in Hshp. subst shp.
    destruct (np_transpose_1_0_2_wf n_epochs n_channels (length (times e)) l)
      as (l' & Ht & Hl'); [unfold wf_ndarray in Hwf; simpl in Hwf; lia|].
    rewrite Ht in Hs. cbn [mbind result_bind rbind] in Hs.
    rewrite convolve_lanes_eq in Hs;
      [|unfold wf_ndarray; simpl; lia|right; unfold ndim; simpl; lia].
    rewrite convolve_lanes_cases in Hs.
    destruct (_ || _) eqn:Hbad; [done|].
    apply orb_false_elim in Hbad as [Hbad Hf].
    apply orb_false_elim in Hbad as [_ Hsz].
    apply Nat.eqb_neq in Hf, Hsz. cbn [shape size_of foldr] in Hsz.
    split; [lia|]. split; [lia|]. split; [|done].
    (* a non-empty filter: [int(nsamples)] is positive *)
    pose proof (nsamples_of_is_int twindow (info_sfreq e)) as Hint.
    unfold boxcar in Hb.
    destruct (int_of_float _) as [k|] eqn:Hk; [|done].
    cbn [mbind result_bind rbind] in Hb. unfold np_ones in Hb.
    destruct (k <? 0)%Z eqn:Hneg; [done|]. apply Z.ltb_ge in Hneg.
    injection Hb as <-. rewrite length_map, repeat_length in Hf.
    destruct (nsamples_of twindow (info_sfreq e)) as [s|s| |s m ex] eqn:E;
      try done.
    + injection Hk as <-. simpl in Hf. lia.
    + destruct Hint as (n & Hn & _ & Hgt). rewrite Hgt.
      assert (n = k) as -> by congruence. apply Z.ltb_lt. lia.
  - intros (Hne & Hnc & Hpos & Hfit).
    destruct (nsamples_fits _ _ _ Hpos Hfit) as (n & Hint & Hn).
    destruct (moving_average_Ok np_version epoch twindow h e data n_epochs n_channels n)
      as [_ ->]; [done..|]. by eexists _, _.
Qed.

Lemma moving_average_returns_iff_witness :
  let e := MkEpochs (float_lit 10) [float_lit 0; float_div float_one (float_lit 10)] 0 in
  let data := NdArray [1; 1; 2] [2%Qc; Qc_of_Z 4] in
  let h := [ObjNdarray data; ObjEpochs e] in
  let twindow := float_div float_one (float_lit 10) in
  (∃ epoch' h', moving_average "1.21.0" 1 twindow h = (Ok epoch', h'))
  ↔ 0 < 1 ∧ 0 < 1
    ∧ float_gt_int (nsamples_of twindow (info_sfreq e)) 0 = true
    ∧ float_gt_int (nsamples_of twindow (info_sfreq e))
        (Z.of_nat (length (times e))) = false.
Proof.
  intros e data h twindow.
  apply (moving_average_returns_iff "1.21.0" 1 twindow h e data 1 1).
  unfold epochs_at. repeat split; reflexivity.
Defined.

(** ** More on [_npairs] *)

Lemma length_flat_map_sum {A B} (f : A → list B) (l : list A) :
  length (flat_map f l) = list_sum (map (fun a => length (f a)) l).
Proof.
  induction l as [|a l IH]; [done|]. simpl. by rewrite length_app, IH.
Qed.

Lemma sum_rows (n : nat) :
  2 * list_sum (map (fun i => n - i) (seq 0 n)) = n * (n + 1).
Proof.
  induction n as [|n IH]; [done|].
  cbn [seq map list_sum]. rewrite <- seq_shift, map_map.
  rewrite (map_ext (fun i => S n - S i) (fun i => n - i)) by done.
  set (s := list_sum (map (fun i => n - i) (seq 0 n))) in *.
  change (2 * (S n - 0 + s) = S n * (S n + 1)). lia.
Qed.

Lemma length_triu (n : nat) : 2 * length (triu n) = n * (n + 1).
Proof.
  unfold triu. rewrite length_flat_map_sum.
  rewrite (map_ext _ (fun i => n - i)); [apply sum_rows|].
  intros i. by rewrite length_map, length_seq.
Qed.

Lemma elem_of_triu (n i j : nat) : (i, j) ∈ triu n ↔ i ≤ j < n.
Proof.
  unfold triu. rewrite list_elem_of_In, in_flat_map. split.
  - intros (i' & Hi'%in_seq & Hin). apply in_map_iff in Hin as (j' & [= <- <-] & Hj'%in_seq).
    lia.
  - intros Hij. exists i. split; [apply in_seq; lia|].
    apply in_map_iff. exists j. split; [done|]. apply in_seq. lia.
Qed.

Lemma NoDup_triu (n : nat) : NoDup (triu n).
Proof.
  unfold triu. generalize (seq 0 n) (NoDup_seq 0 n). intros l Hl.
  induction Hl as [|i l Hi Hl IH]; [constructor|]. simpl.
  apply NoDup_app. split; [|split; [|done]].
  - apply NoDup_fmap_2; [by intros ?? [=]|apply NoDup_seq].
  - intros [i' j'] Hin1 Hin2. apply list_elem_of_fmap in Hin1 as (j & [= -> ->] & _).
    apply list_elem_of_In, in_flat_map in Hin2 as (i2 & Hi2 & Hin2).
    apply in_map_iff in Hin2 as (j2 & [= <- <-] & _).
    apply Hi. by apply list_elem_of_In.
Qed.

(** X12. Up to the point where the float arithmetic starts to round
    ([n_items * (n_items - 1) < 2^53]), [_npairs] returns
    [n_items * (n_items + 1) / 2], and this is, as the docstring says, the
    number of entries of the upper triangle of an [n_items × n_items] matrix,
    diagonal included: the number of pairs [(i, j)] with [i <= j < n_items]. *)
Theorem npairs_counts_triu (n_items : Z) :
  (2 ≤ n_items)%Z → (n_items * (n_items - 1) < 2 ^ 53)%Z →
  _npairs n_items = Ok (n_items * (n_items + 1) / 2)%Z
  ∧ (n_items * (n_items + 1) / 2)%Z = Z.of_nat (length (triu (Z.to_nat n_items)))
  ∧ NoDup (triu (Z.to_nat n_items))
  ∧ ∀ i j, (i, j) ∈ triu (Z.to_nat n_items) ↔ i ≤ j ∧ (Z.of_nat j < n_items)%Z.
Proof.
  intros Hn Hsmall. split; [by apply npairs_exact|].
  split; [|split; [apply NoDup_triu|]].
  - pose proof (length_triu (Z.to_nat n_items)) as Hlen.
    symmetry. apply Z.div_unique_exact; [lia|]. nia.
  - intros i j. rewrite elem_of_triu. lia.
Qed.

Lemma npairs_counts_triu_witness :
  _npairs 10 = Ok (10 * (10 + 1) / 2)%Z
  ∧ (10 * (10 + 1) / 2)%Z = Z.of_nat (length (triu (Z.to_nat 10)))
  ∧ NoDup (triu (Z.to_nat 10))
  ∧ ∀ i j, (i, j) ∈ triu (Z.to_nat 10) ↔ i ≤ j ∧ (Z.of_nat j < 10)%Z.
Proof. apply (npairs_counts_triu 10); [lia|by vm_compute]. Defined.

(** ** More on [_get_unique_targets] *)

Section UniqueTargetsMore.
Context {label : Type} `{Countable label}.
Context (label_le : relation label) `{!RelDecision label_le}.

(** X13. The result depends only on the set of labels the two inputs have in
    common: the order of the labels, their repetitions, and labels that occur
    in one input only make no difference. *)
Theorem get_unique_targets_ext (targets_train targets_test train' test' : list label) :
  (∀ x, x ∈ targets_train ∧ x ∈ targets_test ↔ x ∈ train' ∧ x ∈ test') →
  _get_unique_targets label_le targets_train targets_test
  = _get_unique_targets label_le train' test'.
Proof.
  intros Hx. unfold _get_unique_targets, sorted, np_unique. do 2 f_equal.
  apply set_eq. intros x.
  rewrite !elem_of_intersection, !elem_of_list_to_set, !merge_sort_Permutation,
    !elem_of_remove_dups. apply Hx.
Qed.

(** X14. Train and test labels can be swapped: the result is the same. *)
Theorem get_unique_targets_comm (targets_train targets_test : list label) :
  _get_unique_targets label_le targets_train targets_test
  = _get_unique_targets label_le targets_test targets_train.
Proof.
  unfold _get_unique_targets. f_equal. apply set_eq. intros x.
  rewrite !elem_of_intersection. tauto.
Qed.

Context `{!PartialOrder label_le, !Total label_le}.

Lemma sorted_unique_elem_of (l1 l2 : list label) :
  StronglySorted (strict label_le) l1 → StronglySorted (strict label_le) l2 →
  (∀ x, x ∈ l1 ↔ x ∈ l2) → l1 = l2.
Proof.
  revert l2. induction l1 as [|x l1 IH]; intros l2 H1 H2 Hin.
  - destruct l2 as [|y l2]; [done|].
    assert (y ∈ @nil label) as Hy%elem_of_nil by (apply Hin; by left). done.
  - destruct l2 as [|y l2].
    { assert (x ∈ @nil label) as Hx%elem_of_nil by (apply Hin; by left). done. }
    apply StronglySorted_inv in H1 as [H1 Hx], H2 as [H2 Hy].
    rewrite Forall_forall in Hx, Hy.
    assert (x = y) as <-.
    { assert (x ∈ y :: l2) as Hxin by (apply Hin; by left).
      assert (y ∈ x :: l1) as Hyin by (apply Hin; by left).
      apply elem_of_cons in Hxin as [?|Hxin]; [done|].
      apply elem_of_cons in Hyin as [?|Hyin]; [done|].
      destruct (Hx y Hyin) as [Hxy Hnyx]. destruct (Hy x Hxin) as [Hyx _]. done. }
    f_equal. apply IH; [done..|]. intros z. split; intros Hz.
    + assert (z ∈ x :: l2) as Hz' by (apply Hin; by right).
      apply elem_of_cons in Hz' as [->|?]; [|done].
      destruct (Hx x Hz) as [_ Hirr]. by destruct Hirr.
    + assert (z ∈ x :: l1) as Hz' by (apply Hin; by right).
      apply elem_of_cons in Hz' as [->|?]; [|done].
      destruct (Hy x Hz) as [_ Hirr]. by destruct Hirr.
Qed.

(** X15. [_get_unique_targets] is [np.unique] of the train labels that also
    occur among the test labels (numpy's [intersect1d]); in particular, on
    twice the same labels it is [np.unique] of them, and [np.unique] applied
    to its own result changes nothing. *)
Theorem get_unique_targets_intersect1d (targets_train targets_test : list label) :
  _get_unique_targets label_le targets_train targets_test
  = np_unique label_le (filter (fun x => x ∈ targets_test) targets_train)
  ∧ _get_unique_targets label_le targets_train targets_train
    = np_unique label_le targets_train
  ∧ np_unique label_le (np_unique label_le targets_train)
    = np_unique label_le targets_train.
Proof.
  assert (∀ a b, _get_unique_targets label_le a b
                 = np_unique label_le (filter (fun x => x ∈ b) a)) as Hgen.
  { intros a b. apply sorted_unique_elem_of.
    - unfold _get_unique_targets, sorted. apply (StronglySorted_strict label_le).
      + apply StronglySorted_merge_sort; apply _.
      + rewrite merge_sort_Permutation. apply NoDup_elements.
    - apply (np_unique_sorted label_le).
    - intros x. rewrite (np_unique_elem_of label_le), list_elem_of_filter.
      unfold _get_unique_targets, sorted.
      rewrite merge_sort_Permutation, elem_of_elements, elem_of_intersection,
        !elem_of_list_to_set, !(np_unique_elem_of label_le). tauto. }
  split; [apply Hgen|]. split.
  - rewrite Hgen. apply sorted_unique_elem_of; [apply (np_unique_sorted label_le)..|].
    intros x. rewrite !(np_unique_elem_of label_le), list_elem_of_filter. tauto.
  - apply sorted_unique_elem_of; [apply (np_unique_sorted label_le)..|].
    intros x. by rewrite !(np_unique_elem_of label_le).
Qed.
End UniqueTargetsMore.

Lemma get_unique_targets_ext_witness :
  _get_unique_targets Z.le [3; 1; 2; 2]%Z [2; 3; 3; 4]%Z
  = _get_unique_targets Z.le [2; 3; 7]%Z [3; 2]%Z.
Proof.
  apply (get_unique_targets_ext Z.le [3; 1; 2; 2]%Z [2; 3; 3; 4]%Z [2; 3; 7]%Z [3; 2]%Z).
  intros x. rewrite !elem_of_cons, !elem_of_nil. lia.
Defined.

Lemma get_unique_targets_intersect1d_witness :
  _get_unique_targets Z.le [3; 1; 2; 2]%Z [2; 3; 3; 4]%Z
  = np_unique Z.le (filter (fun x => x ∈ [2; 3; 3; 4]%Z) [3; 1; 2; 2]%Z)
  ∧ _get_unique_targets Z.le [3; 1; 2; 2]%Z [3; 1; 2; 2]%Z
    = np_unique Z.le [3; 1; 2; 2]%Z
  ∧ np_unique Z.le (np_unique Z.le [3; 1; 2; 2]%Z) = np_unique Z.le [3; 1; 2; 2]%Z.
Proof.
  apply (get_unique_targets_intersect1d Z.le [3; 1; 2; 2]%Z [2; 3; 3; 4]%Z).
Defined.


(** ** The branch of [convolve] *)

(** X16. The version test of [convolve] compares strings, not version
    numbers: every numpy [1.8.x] and [1.9.x], although older than [1.12.0],
    takes the [np.vectorize] branch, while every [1.10.x] and [1.11.x] takes
    the manual one. *)
Theorem convolve_branch_by_string (suffix : string) (array : ndarray) (filt : list Qc) :
  convolve ("1.8" +:+ suffix) array filt = convolve_vectorized array filt
  ∧ convolve ("1.9" +:+ suffix) array filt = convolve_vectorized array filt
  ∧ convolve ("1.10" +:+ suffix) array filt = convolve_manual array filt
  ∧ convolve ("1.11" +:+ suffix) array filt = convolve_manual array filt.
Proof. repeat split. Qed.

(** X17. On a 1-D array both branches of [convolve] are [_conv] on its
    elements: the same samples when [_conv] returns, an error when it raises. *)
Theorem convolve_1d (np_version : string) (x filt : list Qc) :
  convolve np_version (array1 x) filt = r ← _conv x filt; Ok (array1 r).
Proof.
  assert (wf_ndarray (array1 x)) as Hwf by (unfold wf_ndarray; simpl; lia).
  rewrite convolve_lanes_eq; [|done|right; unfold ndim; simpl; lia].
  unfold convolve_lanes, lanes, chunks, array1. simpl.
  rewrite chunk_0_all by done.
  destruct (_conv_dichotomy (length x) filt) as [(Hn & Hf & H)|[Hbad H]].
  - destruct (H x eq_refl) as [-> Hlen]. simpl. rewrite Hlen, app_nil_r.
    destruct (length x); [done|]. by destruct filt.
  - rewrite H by done. simpl. destruct Hbad as [-> | ->]; [done|]. by rewrite orb_true_r.
Qed.
